(** * The dynamic terminal display: [internal/terminalui/dynamicui/display.go]

    A shallow embedding of [Display.DisplayEvents], the loop that reads the
    events of the bus and shows them on the terminal, together with the
    deferred cleanup that decides how the process ends.

    The packages the loop calls ([bus], [frame], [eventhandler], [presenter],
    [cberr], [color]) are collaborators: what they answer is an input of the
    model, what the loop asks of them is recorded in a trace. *)

From Stdlib Require Import ZArith String List Bool Lia.
Import ListNotations.

Local Open Scope Z_scope.

(** ** Values that travel through the loop *)

(** A Go [error], known by its message. *)
Definition error : Type := string.

(** [presenter.Presenter]: the three methods the loop calls.  [Present]
    writes the report to the standard output; what it returns is part of
    the presenter. *)
Module Presenter.
Record t : Type := mk
  { Title : string;
    Present : option error;
    Footer : string }.
End Presenter.

(** What [e.Value()] may hold, an [interface{}] in the source. *)
Inductive Payload : Type :=
| VNil
| VString (s : string)
| VError (err : error)
| VPresenter (p : Presenter.t).

(** The type assertion [v.(presenter.Presenter)]: [None] is the run-time
    panic of an assertion that does not hold. *)
Definition asPresenter (v : Payload) : option Presenter.t :=
  match v with
  | VPresenter p => Some p
  | _ => None
  end.

Module Bus.

(** The event types [display.go] names, and [OtherType] for any other. *)
Inductive EventType : Set :=
| NewVersionAvailable
| NewMessageDetected
| ValidateFinishedSuccessfully
| NewErrorDetected
| PullDockerImage
| CopyImage
| ReadImage
| FetchImage
| CatalogerStarted
| ScanStarted
| ScanFinished
| ValidateFinishedWithViolations
| CatalogerFinished
| ReadLayer
| OtherType (tag : nat).

(** A [bus.Event]: its three interface methods, and [errorEvent], the
    result of [ExitCode()] when the dynamic type is [*bus.ErrorEvent]
    ([None] for every other implementation of the interface). *)
Record Event : Type := mkEvent
  { Type_ : EventType;
    Value : Payload;
    IsEnd : bool;
    errorEvent : option Z }.

(** The channel [bus.EventChan()] as the loop sees it: the events that
    are sent, in order, and whether the channel is closed after them. *)
Record Chan : Type := mkChan
  { events : list Event;
    closed : bool }.

End Bus.
Import Bus.

(** [color.X.Sprint(v)] and the error line of the [NewErrorDetected] case,
    [fmt.Sprintf("%s %v", color.Red.Sprint("[Error]"), v)]. *)
Inductive Color : Set := Magenta | Bold.

Inductive Text : Type :=
| Sprint (c : Color) (v : Payload)
| ErrorLine (v : Payload).

(** The six handlers of [eventhandler.Handler] the loop delegates to. *)
Inductive Handler : Set :=
| PullDockerImageHandler
| CopyImageHandler
| ReadImageHandler
| FetchImageHandler
| CatalogerStartedHandler
| AnalyzeStartedHandler.

(** ** The frame *)

Module Frame.

(** Modelled from the spec: package [frame] is not among the sources.
    A frame is an append-only sequence of lines, each empty until it is
    rendered, and the visibility of the cursor. *)
Record t : Type := mk
  { lines : list (option Text);
    cursorHidden : bool }.

Definition NewFrame : t := mk [] false.

Definition HideCursor (f : t) : t := mk (lines f) true.

Definition ShowCursor (f : t) : t := mk (lines f) false.

(** [Append] adds an empty line after the existing ones and returns its
    handle, here its index. *)
Definition Append (f : t) : nat * t :=
  (length (lines f), mk (lines f ++ [None]) (cursorHidden f)).

Fixpoint write (n : nat) (txt : Text) (ls : list (option Text))
  : list (option Text) :=
  match ls, n with
  | [], _ => []
  | _ :: rest, O => Some txt :: rest
  | l :: rest, S k => l :: write k txt rest
  end.

(** A successful [Render] puts the text on its line. *)
Definition Render (n : nat) (txt : Text) (f : t) : t :=
  mk (write n txt (lines f)) (cursorHidden f).

(** The lines that were given a content. *)
Definition rendered (f : t) : list Text :=
  flat_map (fun l => match l with Some x => [x] | None => [] end) (lines f).

End Frame.

(** ** The environment

    What the collaborators answer.  [renderResult n txt] is what
    [Render(txt)] returns on the line of handle [n] (every line is rendered
    at most once); [handlerResult h n v] is what handler [h] returns for
    line [n] and value [v]; [displayErrExitCode err] is
    [cberr.NewError(cberr.DisplayErr, msg, err).ExitCode()]. *)
Record Env : Type := mkEnv
  { renderResult : nat -> Text -> option error;
    handlerResult : Handler -> nat -> Payload -> option error;
    displayErrExitCode : error -> Z }.

(** ** Observable actions

    One action for each call the loop makes on a collaborator.
    [AStderr msg] is the call [fmt.Fprintln(os.Stderr, msg)] of line 49;
    [ALogError err] is the call [logrus.Errorln] of line 52, on the
    wrapper that line 48 builds around the display error [err]. *)

Inductive Action : Type :=
| AHideCursor
| AShowCursor
| ADequeue (e : Event)
| AAppend (line : nat)
| ARender (line : nat) (txt : Text) (res : option error)
| AWait
| ARegister (h : Handler) (line : nat) (v : Payload)
| APresent (p : Presenter.t)
| AStderr (msg : string)
| ALogError (err : error).

(** ** The state of one run

    The two local variables of [DisplayEvents], the frame, the wait group
    (the number of sub-tasks registered and not yet waited for) and the
    trace of actions, oldest first. *)
Record State : Type := mkState
  { displayErr : option error;
    exitCode : Z;
    fr : Frame.t;
    wg : nat;
    trace : list Action }.

(** ** A state monad with panics *)

Inductive Step (A : Type) : Type :=
| Ok (a : A)
| Panic.
Arguments Ok {A} a.
Arguments Panic {A}.

Definition M (A : Type) : Type := State -> Step A * State.

Definition ret {A : Type} (a : A) : M A := fun s => (Ok a, s).

Definition bind {A B : Type} (m : M A) (f : A -> M B) : M B :=
  fun s =>
    match m s with
    | (Ok a, s') => f a s'
    | (Panic, s') => (Panic, s')
    end.

Definition panic {A : Type} : M A := fun s => (Panic, s).

Declare Scope go_scope.
Delimit Scope go_scope with go.
Notation "x <- m ;; k" := (bind m (fun x => k))
  (at level 61, m at next level, right associativity) : go_scope.
Notation "m ;; k" := (bind m (fun _ => k))
  (at level 61, right associativity) : go_scope.
Local Open Scope go_scope.

Definition emit (a : Action) : M unit :=
  fun s => (Ok tt, mkState (displayErr s) (exitCode s) (fr s) (wg s)
                           (trace s ++ [a])).

Definition set_displayErr (d : option error) : M unit :=
  fun s => (Ok tt, mkState d (exitCode s) (fr s) (wg s) (trace s)).

Definition set_exitCode (c : Z) : M unit :=
  fun s => (Ok tt, mkState (displayErr s) c (fr s) (wg s) (trace s)).

Definition get_displayErr : M (option error) :=
  fun s => (Ok (displayErr s), s).

(** How one iteration of the loop ends. *)
Inductive Control : Set :=
| Next
| Break.

(** How the loop ends: by [break], by a panic, or by running out of
    events. *)
Inductive LoopExit : Set :=
| Broke
| Panicked
| ChanEmpty.

(** How the call ends: it returns, the process exits with a code, the
    panic goes on to the caller, or the call stays blocked on the
    channel. *)
Inductive Outcome : Set :=
| Returns
| Exits (code : Z)
| Panics
| Blocks.

Record Result : Type := mkResult
  { outcome : Outcome;
    loopExit : LoopExit;
    final : State;
    unread : list Event }.

Section Display.

Variable env : Env.

(** *** The collaborators' calls *)

(** [fr.Append()] *)
Definition fr_Append : M nat :=
  fun s =>
    let (n, f) := Frame.Append (fr s) in
    (Ok n, mkState (displayErr s) (exitCode s) f (wg s)
                   (trace s ++ [AAppend n])).

(** [line.Render(txt)] *)
Definition Render (n : nat) (txt : Text) : M (option error) :=
  fun s =>
    let r := renderResult env n txt in
    let f := match r with
             | None => Frame.Render n txt (fr s)
             | Some _ => fr s
             end in
    (Ok r, mkState (displayErr s) (exitCode s) f (wg s)
                   (trace s ++ [ARender n txt r])).

(** [fr.HideCursor()] and [fr.ShowCursor()]; the loop drops what they
    return. *)
Definition fr_HideCursor : M unit :=
  fun s => (Ok tt, mkState (displayErr s) (exitCode s)
                           (Frame.HideCursor (fr s)) (wg s)
                           (trace s ++ [AHideCursor])).

Definition fr_ShowCursor : M unit :=
  fun s => (Ok tt, mkState (displayErr s) (exitCode s)
                           (Frame.ShowCursor (fr s)) (wg s)
                           (trace s ++ [AShowCursor])).

(** [wg.Wait()] returns once every registered sub-task is done. *)
Definition wg_Wait : M unit :=
  fun s => (Ok tt, mkState (displayErr s) (exitCode s) (fr s) O
                           (trace s ++ [AWait])).

(** Modelled from the spec: package [eventhandler] is not among the
    sources.  A handler registers a sub-task on the wait group and
    returns at once; what it returns is the environment's. *)
Definition handle (h : Handler) (n : nat) (v : Payload) : M (option error) :=
  fun s => (Ok (handlerResult env h n v),
            mkState (displayErr s) (exitCode s) (fr s) (S (wg s))
                    (trace s ++ [ARegister h n v])).

(** [pres.Present(os.Stdout)] *)
Definition Present (p : Presenter.t) : M (option error) :=
  emit (APresent p) ;; ret (Presenter.Present p).

(** The two type assertions. *)
Definition assertPresenter (v : Payload) : M Presenter.t :=
  match asPresenter v with
  | Some p => ret p
  | None => panic
  end.

Definition assertErrorEvent (e : Event) : M Z :=
  match errorEvent e with
  | Some c => ret c
  | None => panic
  end.

(** [displayErr = h(fr.Append(), e.Value())] *)
Definition delegate (h : Handler) (e : Event) : M unit :=
  n <- fr_Append ;;
  r <- handle h n (Value e) ;;
  set_displayErr r.

(** [displayErr = fr.Append().Render(txt)] *)
Definition appendRender (txt : Text) : M unit :=
  n <- fr_Append ;;
  r <- Render n txt ;;
  set_displayErr r.

Definition errorf_present (err : error) : error :=
  String.append "failed to show vulnerability results: "%string err.

(** *** The switch (lines 66-109)

    [true] when control reaches the test after the switch, [false] for
    the [continue] of the last two cases. *)
Definition switch (e : Event) : M bool :=
  match Type_ e with
  | NewVersionAvailable =>
      appendRender (Sprint Magenta (Value e)) ;;
      ret true
  | NewMessageDetected | ValidateFinishedSuccessfully =>
      wg_Wait ;;
      appendRender (Sprint Bold (Value e)) ;;
      ret true
  | NewErrorDetected =>
      appendRender (ErrorLine (Value e)) ;;
      c <- assertErrorEvent e ;;
      set_exitCode c ;;
      ret true
  | PullDockerImage => delegate PullDockerImageHandler e ;; ret true
  | CopyImage => delegate CopyImageHandler e ;; ret true
  | ReadImage => delegate ReadImageHandler e ;; ret true
  | FetchImage => delegate FetchImageHandler e ;; ret true
  | CatalogerStarted => delegate CatalogerStartedHandler e ;; ret true
  | ScanStarted => delegate AnalyzeStartedHandler e ;; ret true
  | ScanFinished | ValidateFinishedWithViolations =>
      wg_Wait ;;
      pres <- assertPresenter (Value e) ;;
      _ <- fr_Append ;;
      appendRender (Sprint Bold (VString (Presenter.Title pres))) ;;
      _ <- fr_Append ;;
      perr <- Present pres ;;
      match perr with
      | Some err => set_displayErr (Some (errorf_present err))
      | None => ret tt
      end ;;
      (if String.eqb (Presenter.Footer pres) EmptyString
       then ret tt
       else appendRender (Sprint Bold (VString (Presenter.Footer pres)))) ;;
      ret true
  | CatalogerFinished | ReadLayer => ret false
  | OtherType _ => ret false
  end.

(** *** One iteration (lines 65-113): the event is received, the switch
    runs, and the test [e.IsEnd() || displayErr != nil] decides. *)
Definition loopBody (e : Event) : M Control :=
  emit (ADequeue e) ;;
  tested <- switch e ;;
  if tested
  then
    d <- get_displayErr ;;
    if IsEnd e || (match d with Some _ => true | None => false end)
    then ret Break
    else ret Next
  else ret Next.

(** *** The loop over the channel *)
Fixpoint eventLoop (evs : list Event) (s : State)
  : LoopExit * State * list Event :=
  match evs with
  | [] => (ChanEmpty, s, [])
  | e :: rest =>
      match loopBody e s with
      | (Ok Next, s') => eventLoop rest s'
      | (Ok Break, s') => (Broke, s', rest)
      | (Panic, s') => (Panicked, s', rest)
      end
  end.

(** *** The deferred function (lines 42-58), up to the test of
    [exitCode]. *)
Definition displayFailureMsg : string :=
  "Failed to show the ui during the whole process"%string.

Definition cleanup : M unit :=
  _ <- fr_Append ;;
  fr_ShowCursor ;;
  d <- get_displayErr ;;
  match d with
  | Some err =>
      emit (AStderr displayFailureMsg) ;;
      set_exitCode (displayErrExitCode env err) ;;
      emit (ALogError err)
  | None => ret tt
  end.

(** The state in which the loop starts (lines 34-40, 60-62): no display
    error, exit code 0, a new frame whose cursor was just hidden, an empty
    wait group. *)
Definition initState : State :=
  snd (fr_HideCursor (mkState None 0 Frame.NewFrame O [])).

(** *** [DisplayEvents] *)
Definition DisplayEvents (ch : Chan) : Result :=
  match eventLoop (events ch) initState with
  | (ChanEmpty, s, rest) =>
      if closed ch
      then
        let s' := snd (cleanup s) in
        mkResult (if 0 <? exitCode s' then Exits (exitCode s') else Returns)
                 ChanEmpty s' rest
      else mkResult Blocks ChanEmpty s rest
  | (Broke, s, rest) =>
      let s' := snd (cleanup s) in
      mkResult (if 0 <? exitCode s' then Exits (exitCode s') else Returns)
               Broke s' rest
  | (Panicked, s, rest) =>
      let s' := snd (cleanup s) in
      mkResult (if 0 <? exitCode s' then Exits (exitCode s') else Panics)
               Panicked s' rest
  end.

(** The state in which the loop is left. *)
Definition loopState (evs : list Event) (s : State) : State :=
  snd (fst (eventLoop evs s)).

(** The result of a scan or of a validation (lines 90-104), for an
    event that carries a presenter.  [n] is the handle of the first line
    the iteration appends. *)
Definition titleText (p : Presenter.t) : Text :=
  Sprint Bold (VString (Presenter.Title p)).

Definition footerText (p : Presenter.t) : Text :=
  Sprint Bold (VString (Presenter.Footer p)).

Definition hasFooter (p : Presenter.t) : bool :=
  negb (String.eqb (Presenter.Footer p) EmptyString).

Definition finishedActions (e : Event) (p : Presenter.t) (n : nat)
  : list Action :=
  [ADequeue e; AWait; AAppend n; AAppend (S n);
   ARender (S n) (titleText p) (renderResult env (S n) (titleText p));
   AAppend (S (S n)); APresent p]
  ++ (if hasFooter p
      then [AAppend (S (S (S n)));
            ARender (S (S (S n))) (footerText p)
              (renderResult env (S (S (S n))) (footerText p))]
      else []).

Definition finishedErr (p : Presenter.t) (n : nat) : option error :=
  if hasFooter p
  then renderResult env (S (S (S n))) (footerText p)
  else match Presenter.Present p with
       | Some err => Some (errorf_present err)
       | None => renderResult env (S n) (titleText p)
       end.

End Display.

Arguments errorf_present : simpl never.
Arguments loopBody : simpl never.
Arguments cleanup : simpl never.
Arguments initState : simpl never.

(** ** Kinds of events, as the dispatch table groups them *)

Definition synchronized (t : EventType) : bool :=
  match t with
  | NewMessageDetected | ValidateFinishedSuccessfully
  | ScanFinished | ValidateFinishedWithViolations => true
  | _ => false
  end.

Definition finished (t : EventType) : bool :=
  match t with
  | ScanFinished | ValidateFinishedWithViolations => true
  | _ => false
  end.

Definition delegated (t : EventType) : option Handler :=
  match t with
  | PullDockerImage => Some PullDockerImageHandler
  | CopyImage => Some CopyImageHandler
  | ReadImage => Some ReadImageHandler
  | FetchImage => Some FetchImageHandler
  | CatalogerStarted => Some CatalogerStartedHandler
  | ScanStarted => Some AnalyzeStartedHandler
  | _ => None
  end.

Definition ignored (t : EventType) : bool :=
  match t with
  | CatalogerFinished | ReadLayer | OtherType _ => true
  | _ => false
  end.

Definition isErrorType (t : EventType) : bool :=
  match t with
  | NewErrorDetected => true
  | _ => false
  end.

Definition isSome {A : Type} (o : option A) : bool :=
  match o with
  | Some _ => true
  | None => false
  end.

(** The test after the switch, [e.IsEnd() || displayErr != nil]. *)
Definition stopAfter (e : Event) (d : option error) : Control :=
  if IsEnd e || isSome d then Break else Next.

(** The dynamic types the two assertions of the loop expect. *)
Definition wellTyped (e : Event) : bool :=
  match Type_ e with
  | NewErrorDetected => isSome (errorEvent e)
  | ScanFinished | ValidateFinishedWithViolations => isSome (asPresenter (Value e))
  | _ => true
  end.

(** A result event whose payload is a presenter that presents without an
    error; every other event passes. *)
Definition presentsOk (e : Event) : bool :=
  if finished (Type_ e)
  then match Value e with
       | VPresenter p => negb (isSome (Presenter.Present p))
       | _ => false
       end
  else true.

(** The line handle the next [fr.Append()] returns. *)
Definition nextLine (s : State) : nat := length (Frame.lines (fr s)).

(** ** A monitor of the completion barrier

    It reads a trace and keeps the number of sub-tasks registered since the
    last wait, whether the loop has waited since it received the current
    event, and the type of that event.  An iteration for an event of a
    synchronized kind is settled when the loop has waited in it and no
    sub-task was registered since.  The barrier is respected when every
    line appended, every render and every call of the presenter done for
    such an event happens in a settled iteration, and when every such
    iteration is settled by the time the next event is received or the
    trace ends: an iteration that does not wait is refused, whatever it
    does. *)
Record Barrier : Type := mkBarrier
  { pending : nat;
    waited : bool;
    current : option EventType;
    respected : bool }.

Definition settled (b : Barrier) : bool :=
  match current b with
  | Some t =>
      if synchronized t then waited b && Nat.eqb (pending b) O else true
  | None => true
  end.

Definition observe (b : Barrier) (a : Action) : Barrier :=
  match a with
  | ADequeue e =>
      mkBarrier (pending b) false (Some (Type_ e)) (respected b && settled b)
  | ARegister _ _ _ =>
      mkBarrier (S (pending b)) (waited b) (current b) (respected b)
  | AWait => mkBarrier O true (current b) (respected b)
  | AAppend _ | ARender _ _ _ | APresent _ =>
      mkBarrier (pending b) (waited b) (current b)
        (respected b && settled b)
  | _ => b
  end.

Definition monitor (tr : list Action) : Barrier :=
  fold_left observe tr (mkBarrier O false None true).

Definition barrierRespected (tr : list Action) : bool :=
  respected (monitor tr) && settled (monitor tr).

Definition isRender (a : Action) : bool :=
  match a with
  | ARender _ _ _ => true
  | _ => false
  end.

Definition isRegister (a : Action) : bool :=
  match a with
  | ARegister _ _ _ => true
  | _ => false
  end.

Definition isWait (a : Action) : bool :=
  match a with
  | AWait => true
  | _ => false
  end.

(** How many times the cursor was shown again. *)
Definition cursorShown (tr : list Action) : nat :=
  length (filter (fun a => match a with AShowCursor => true | _ => false end) tr).

(** The frame after [fr.Append().Render(txt)] answered [r]. *)
Definition frameAfterRender (r : option error) (txt : Text) (f : Frame.t)
  : Frame.t :=
  match r with
  | None => Frame.Render (length (Frame.lines f)) txt (snd (Frame.Append f))
  | Some _ => snd (Frame.Append f)
  end.


(** ** Readings of a trace *)

(** The events received, in the order they were received. *)
Definition dequeued (tr : list Action) : list Event :=
  flat_map (fun a => match a with ADequeue e => [e] | _ => [] end) tr.

(** How many times the loop waited on the wait group. *)
Definition waits (tr : list Action) : nat :=
  length (filter (fun a => match a with AWait => true | _ => false end) tr).

(** The messages of the calls [fmt.Fprintln(os.Stderr, msg)] (line 49).
    The frame is built on [os.Stderr] too (line 39): what the renders and
    the cursor calls write there is in the [ARender], [AHideCursor] and
    [AShowCursor] actions, and is not counted here. *)
Definition printedDiagnostics (tr : list Action) : list string :=
  flat_map (fun a => match a with AStderr m => [m] | _ => [] end) tr.

(** [cberr.NewError(cberr.DisplayErr, msg, displayErr)] (line 48), by what
    the loop puts in it: the message and the display error it wraps. *)
Record DisplayFailure : Type := mkDisplayFailure
  { reason : string;
    cause : error }.

(** The values given to [logrus.Errorln] (line 52): the wrapper of the
    display error, not the display error itself. *)
Definition loggedFailures (tr : list Action) : list DisplayFailure :=
  flat_map
    (fun a =>
       match a with
       | ALogError err => [mkDisplayFailure displayFailureMsg err]
       | _ => []
       end)
    tr.

(** A monitor of line handles.  It counts the lines appended and keeps
    the handle of the line appended by the action just before.  Handles
    are fresh when each [fr.Append()] answers the number of lines appended
    before it, and each render, and each handler, is given the handle
    that the action just before it appended; a handle is used once. *)
Record Fresh : Type := mkFresh
  { appended : nat;
    lastAppend : option nat;
    fresh : bool }.

Definition usesLast (b : Fresh) (n : nat) : bool :=
  match lastAppend b with
  | Some m => Nat.eqb m n
  | None => false
  end.

Definition observeFresh (b : Fresh) (a : Action) : Fresh :=
  match a with
  | AAppend n =>
      mkFresh (S (appended b)) (Some n) (fresh b && Nat.eqb n (appended b))
  | ARender n _ _ => mkFresh (appended b) None (fresh b && usesLast b n)
  | ARegister _ n _ => mkFresh (appended b) None (fresh b && usesLast b n)
  | _ => mkFresh (appended b) None (fresh b)
  end.

Definition freshState (tr : list Action) : Fresh :=
  fold_left observeFresh tr (mkFresh O None true).

Definition linesFresh (tr : list Action) : bool :=
  fresh (freshState tr).

(** The handles the loop gave to a render or to a handler, in order. *)
Definition written (tr : list Action) : list nat :=
  flat_map
    (fun a =>
       match a with
       | ARender n _ _ => [n]
       | ARegister _ n _ => [n]
       | _ => []
       end)
    tr.

(** The exit code after the events [used], from the code [c0]: each
    error-detected event that is a [*bus.ErrorEvent] puts its own. *)
Definition lastErrorCode (used : list Event) (c0 : Z) : Z :=
  fold_left
    (fun c e =>
       match Type_ e, errorEvent e with
       | NewErrorDetected, Some c' => c'
       | _, _ => c
       end)
    used c0.

(** What the cleanup adds to the trace in state [s]. *)
Definition cleanupActions (s : State) : list Action :=
  AAppend (nextLine s) :: AShowCursor ::
  match displayErr s with
  | Some err => [AStderr displayFailureMsg; ALogError err]
  | None => []
  end.

(** ** Sample runs *)

Local Open Scope string_scope.
Local Open Scope list_scope.
Local Open Scope Z_scope.

(** Every write succeeds; a display failure exits with code 1. *)
Definition okEnv : Env :=
  mkEnv (fun _ _ => None) (fun _ _ _ => None) (fun _ => 1).

(** Every render fails. *)
Definition brokenPipeEnv : Env :=
  mkEnv (fun _ _ => Some "broken pipe") (fun _ _ _ => None) (fun _ => 1).

(** Every handler fails. *)
Definition handlerFailsEnv : Env :=
  mkEnv (fun _ _ => None) (fun _ _ _ => Some "spinner failed") (fun _ => 1).

(** Only the render on line 1 fails. *)
Definition lineOneFailsEnv : Env :=
  mkEnv (fun n _ => if Nat.eqb n 1 then Some "broken pipe" else None)
        (fun _ _ _ => None) (fun _ => 1).

Definition diskFull (isEnd : bool) : Event :=
  mkEvent NewErrorDetected (VError "disk full") isEnd (Some 74).

Definition newVersion : Event :=
  mkEvent NewVersionAvailable (VString "v2") true None.

Definition scanStarted : Event :=
  mkEvent ScanStarted (VString "image") false None.

Definition found3 : Event :=
  mkEvent NewMessageDetected (VString "found 3 issues") false None.

Definition results (footer : string) (present : option error) : Presenter.t :=
  Presenter.mk "Results" present footer.

Definition scanFinished (p : Presenter.t) : Event :=
  mkEvent ScanFinished (VPresenter p) true None.

Definition catalogerFinishedEnd : Event :=
  mkEvent CatalogerFinished VNil true None.

Definition pullImage : Event :=
  mkEvent PullDockerImage (VString "image") false None.

(** An error-detected event that is not a [*bus.ErrorEvent], and a
    scan-finished event whose value is not a presenter. *)
Definition untypedError : Event :=
  mkEvent NewErrorDetected (VError "boom") true None.

Definition untypedResult : Event :=
  mkEvent ScanFinished (VString "report") true None.

(** * Proofs *)

Lemma length_write (n : nat) (txt : Text) (ls : list (option Text)) :
  length (Frame.write n txt ls) = length ls.
Proof.
  revert n. induction ls as [|l ls IH]; intros [|n]; cbn; auto.
Qed.

Arguments Frame.write : simpl never.

(** Run one iteration symbolically: unfold the monad and the calls of the
    loop, and stop at what the environment answers. *)
Ltac run :=
  unfold stopAfter, nextLine;
  cbv beta iota zeta delta
    [loopBody switch appendRender delegate Present cleanup
     assertErrorEvent assertPresenter asPresenter
     bind ret panic emit set_displayErr set_exitCode get_displayErr
     fr_Append fr_ShowCursor Render wg_Wait handle
     Type_ Value IsEnd errorEvent];
  cbn.

(** Bring traces and line handles to one shape. *)
Ltac norm :=
  repeat (progress
    (rewrite ?length_app, ?length_write, <- ?app_assoc,
       ?Nat.add_succ_r, ?Nat.add_0_r; cbn)).

(** Every way through one iteration. *)
Ltac paths env e :=
  let ty := fresh "ty" in
  let v := fresh "v" in
  let ie := fresh "ie" in
  let ee := fresh "ee" in
  destruct e as [ty v ie ee];
  destruct ty; destruct ie; destruct ee; destruct v as [| ? | ? | [? [?|] ?]];
  run; norm;
  repeat match goal with
         | |- context [renderResult env ?n ?t] =>
             destruct (renderResult env n t) eqn:?; norm
         | |- context [handlerResult env ?h ?n ?t] =>
             destruct (handlerResult env h n t) eqn:?; norm
         | |- context [String.eqb ?a ?b] =>
             destruct (String.eqb a b) eqn:?; norm
         end.

(** ** One iteration, kind by kind *)

Section Iteration.

Variable env : Env.

Lemma length_frameAfterRender r txt f :
  length (Frame.lines (frameAfterRender r txt f)) = S (length (Frame.lines f)).
Proof.
  destruct r; cbn; [|rewrite length_write]; rewrite length_app; cbn; lia.
Qed.

(** Ignored kinds: the [continue] of lines 105-108. *)
Lemma loopBody_ignored (e : Event) (s : State) :
  ignored (Type_ e) = true ->
  loopBody env e s =
    (Ok Next, mkState (displayErr s) (exitCode s) (fr s) (wg s)
                      (trace s ++ [ADequeue e])).
Proof.
  destruct e as [ty v ie ee]; destruct ty; cbn; try discriminate; reflexivity.
Qed.

(** Delegated kinds (lines 78-89). *)
Lemma loopBody_delegated (e : Event) (h : Handler) (s : State) :
  delegated (Type_ e) = Some h ->
  loopBody env e s =
    (Ok (stopAfter e (handlerResult env h (nextLine s) (Value e))),
     mkState (handlerResult env h (nextLine s) (Value e)) (exitCode s)
             (snd (Frame.Append (fr s))) (S (wg s))
             (trace s ++ [ADequeue e; AAppend (nextLine s);
                          ARegister h (nextLine s) (Value e)])).
Proof.
  destruct e as [ty v ie ee]; destruct ty; cbn; try discriminate;
    intros [= <-]; run;
    rewrite <- !app_assoc; cbn;
    destruct (handlerResult env _ _ v), ie; reflexivity.
Qed.

(** The version line (lines 67-69). *)
Lemma loopBody_version (e : Event) (s : State) :
  Type_ e = NewVersionAvailable ->
  loopBody env e s =
    (Ok (stopAfter e (renderResult env (nextLine s) (Sprint Magenta (Value e)))),
     mkState (renderResult env (nextLine s) (Sprint Magenta (Value e)))
             (exitCode s)
             (frameAfterRender
                (renderResult env (nextLine s) (Sprint Magenta (Value e)))
                (Sprint Magenta (Value e)) (fr s))
             (wg s)
             (trace s ++ [ADequeue e; AAppend (nextLine s);
                          ARender (nextLine s) (Sprint Magenta (Value e))
                            (renderResult env (nextLine s)
                               (Sprint Magenta (Value e)))])).
Proof.
  destruct e as [ty v ie ee]; cbn; intros ->; run;
    rewrite <- !app_assoc; cbn;
    destruct (renderResult env _ _), ie; reflexivity.
Qed.

(** The synchronized line (lines 70-73). *)
Lemma loopBody_message (e : Event) (s : State) :
  Type_ e = NewMessageDetected \/ Type_ e = ValidateFinishedSuccessfully ->
  loopBody env e s =
    (Ok (stopAfter e (renderResult env (nextLine s) (Sprint Bold (Value e)))),
     mkState (renderResult env (nextLine s) (Sprint Bold (Value e)))
             (exitCode s)
             (frameAfterRender
                (renderResult env (nextLine s) (Sprint Bold (Value e)))
                (Sprint Bold (Value e)) (fr s))
             O
             (trace s ++ [ADequeue e; AWait; AAppend (nextLine s);
                          ARender (nextLine s) (Sprint Bold (Value e))
                            (renderResult env (nextLine s)
                               (Sprint Bold (Value e)))])).
Proof.
  destruct e as [ty v ie ee]; cbn; intros [-> | ->]; run;
    rewrite <- !app_assoc; cbn;
    destruct (renderResult env _ _), ie; reflexivity.
Qed.

(** The error line (lines 74-77), for an event that is a
    [*bus.ErrorEvent]. *)
Lemma loopBody_error (e : Event) (c : Z) (s : State) :
  Type_ e = NewErrorDetected ->
  errorEvent e = Some c ->
  loopBody env e s =
    (Ok (stopAfter e (renderResult env (nextLine s) (ErrorLine (Value e)))),
     mkState (renderResult env (nextLine s) (ErrorLine (Value e)))
             c
             (frameAfterRender
                (renderResult env (nextLine s) (ErrorLine (Value e)))
                (ErrorLine (Value e)) (fr s))
             (wg s)
             (trace s ++ [ADequeue e; AAppend (nextLine s);
                          ARender (nextLine s) (ErrorLine (Value e))
                            (renderResult env (nextLine s)
                               (ErrorLine (Value e)))])).
Proof.
  destruct e as [ty v ie ee]; cbn; intros -> ->; run;
    rewrite <- !app_assoc; cbn;
    destruct (renderResult env _ _), ie; reflexivity.
Qed.

(** The error line for an event of another dynamic type: the assertion
    of line 77 panics, after the render. *)
Lemma loopBody_error_panics (e : Event) (s : State) :
  Type_ e = NewErrorDetected ->
  errorEvent e = None ->
  fst (loopBody env e s) = Panic /\
  exitCode (snd (loopBody env e s)) = exitCode s /\
  displayErr (snd (loopBody env e s)) =
    renderResult env (nextLine s) (ErrorLine (Value e)).
Proof.
  destruct e as [ty v ie ee]; cbn; intros -> ->; run.
  destruct (renderResult env _ _); cbn; auto.
Qed.

Lemma loopBody_finished (e : Event) (p : Presenter.t) (s : State) :
  finished (Type_ e) = true ->
  Value e = VPresenter p ->
  fst (loopBody env e s) = Ok (stopAfter e (finishedErr env p (nextLine s))) /\
  displayErr (snd (loopBody env e s)) = finishedErr env p (nextLine s) /\
  exitCode (snd (loopBody env e s)) = exitCode s /\
  wg (snd (loopBody env e s)) = O /\
  trace (snd (loopBody env e s)) =
    trace s ++ finishedActions env e p (nextLine s).
Proof.
  destruct e as [ty v ie ee]; cbn; intros Hty ->.
  unfold finishedErr, finishedActions, hasFooter, titleText, footerText.
  destruct p as [title pres foot]; cbn.
  destruct ty; try discriminate Hty; destruct ie; run; norm;
    destruct (renderResult env (S _) (Sprint Bold (VString title)));
    destruct pres; destruct (String.eqb foot EmptyString); norm;
    try destruct (renderResult env (S (S (S _))) _); norm;
    repeat split; reflexivity.
Qed.

(** The same event with another payload: the assertion of line 92
    panics, after the wait and before any line is appended. *)
Lemma loopBody_finished_panics (e : Event) (s : State) :
  finished (Type_ e) = true ->
  asPresenter (Value e) = None ->
  loopBody env e s =
    (Panic, mkState (displayErr s) (exitCode s) (fr s) O
                    (trace s ++ [ADequeue e; AWait])).
Proof.
  destruct e as [ty v ie ee]; cbn; intros Hty Hv.
  destruct v; try discriminate Hv;
    destruct ty; try discriminate Hty; run;
    rewrite <- ?app_assoc; reflexivity.
Qed.

End Iteration.

(** ** The loop *)

Section Loop.

Variable env : Env.

Lemma eventLoop_unread_ChanEmpty (evs : list Event) (s : State) :
  fst (fst (eventLoop env evs s)) = ChanEmpty ->
  snd (eventLoop env evs s) = [].
Proof.
  revert s. induction evs as [|e evs IH]; intros s; cbn; auto.
  destruct (loopBody env e s) as [[[|]|] s']; cbn;
    [apply IH | discriminate | discriminate].
Qed.

(** Events that do not stop the loop are a prefix like any other. *)
Lemma eventLoop_app (pre post : list Event) (s0 s : State) :
  eventLoop env pre s0 = (ChanEmpty, s, []) ->
  eventLoop env (pre ++ post) s0 = eventLoop env post s.
Proof.
  revert s0. induction pre as [|e pre IH]; intros s0; cbn.
  - now intros [= <-].
  - destruct (loopBody env e s0) as [[[|]|] s']; auto; discriminate.
Qed.

Lemma eventLoop_suffix (evs : list Event) (s : State) :
  exists used, evs = used ++ snd (eventLoop env evs s).
Proof.
  revert s. induction evs as [|e evs IH]; intros s; cbn.
  - now exists [].
  - destruct (loopBody env e s) as [[[|]|] s']; cbn.
    + destruct (IH s') as [used Hu]. exists (e :: used). cbn. now f_equal.
    + now exists [e].
    + now exists [e].
Qed.

Lemma cursorShown_app (tr acts : list Action) :
  cursorShown (tr ++ acts) = (cursorShown tr + cursorShown acts)%nat.
Proof. unfold cursorShown. now rewrite filter_app, length_app. Qed.

(** One iteration keeps the barrier respected, and the monitor's count of
    pending sub-tasks is the wait group's. *)
Lemma loopBody_barrier (e : Event) (s : State) :
  barrierRespected (trace s) = true ->
  pending (monitor (trace s)) = wg s ->
  barrierRespected (trace (snd (loopBody env e s))) = true /\
  pending (monitor (trace (snd (loopBody env e s)))) = wg (snd (loopBody env e s)).
Proof.
  unfold barrierRespected, monitor.
  remember (fold_left observe (trace s) (mkBarrier O false None true))
    as b eqn:Eb.
  destruct b as [p w c r]. intros [Hr Hs]%andb_prop Hp.
  cbn in Hr, Hp. subst r p. unfold settled in Hs. cbn in Hs.
  paths env e; rewrite fold_left_app, <- Eb; cbn; unfold settled; cbn;
    rewrite ?Hs; cbn; auto.
Qed.

(** The iteration of an event of a synchronized kind: the wait is its
    first action; nothing is registered after it, and the wait group is
    empty at the end; when the payload has the expected type, a render
    follows the wait. *)
Lemma loopBody_synchronized (e : Event) (s : State) :
  synchronized (Type_ e) = true ->
  exists acts,
    trace (snd (loopBody env e s)) = trace s ++ ADequeue e :: AWait :: acts /\
    forallb (fun a => negb (isRegister a) && negb (isWait a)) acts = true /\
    wg (snd (loopBody env e s)) = O /\
    (wellTyped e = true -> existsb isRender acts = true).
Proof.
  unfold wellTyped.
  paths env e; intros; try discriminate;
    (eexists; split; [reflexivity|]; cbn; auto).
Qed.

(** One iteration never shows the cursor. *)
Lemma loopBody_cursorShown (e : Event) (s : State) :
  cursorShown (trace (snd (loopBody env e s))) = cursorShown (trace s).
Proof.
  unfold cursorShown.
  paths env e; rewrite filter_app, length_app; cbn; lia.
Qed.

(** An iteration panics only at one of the two assertions. *)
Lemma loopBody_wellTyped (e : Event) (s : State) :
  wellTyped e = true -> fst (loopBody env e s) <> Panic.
Proof.
  unfold wellTyped. paths env e; intros; try discriminate.
Qed.

(** Only the error case assigns [exitCode]. *)
Lemma loopBody_exitCode (e : Event) (s : State) :
  isErrorType (Type_ e) = false ->
  exitCode (snd (loopBody env e s)) = exitCode s.
Proof. paths env e; intros; try discriminate; reflexivity. Qed.

(** A terminal event of a kind the switch handles ends the loop. *)
Lemma loopBody_end (e : Event) (s : State) :
  ignored (Type_ e) = false ->
  IsEnd e = true ->
  fst (loopBody env e s) <> Ok Next.
Proof. paths env e; intros; discriminate. Qed.

(** When nothing fails, an iteration records no display error, and it
    ends the loop exactly for a terminal event of a handled kind. *)
Lemma loopBody_quiet (e : Event) (s : State) :
  (forall n txt, renderResult env n txt = None) ->
  (forall h n v, handlerResult env h n v = None) ->
  isErrorType (Type_ e) = false ->
  presentsOk e = true ->
  displayErr s = None ->
  fst (loopBody env e s) =
    Ok (if negb (ignored (Type_ e)) && IsEnd e then Break else Next) /\
  displayErr (snd (loopBody env e s)) = None.
Proof.
  intros Hr Hh. unfold presentsOk.
  paths env e; intros; try discriminate;
    repeat match goal with
           | H : renderResult env _ _ = Some _ |- _ =>
               rewrite Hr in H; discriminate H
           | H : handlerResult env _ _ _ = Some _ |- _ =>
               rewrite Hh in H; discriminate H
           end;
    auto.
Qed.

End Loop.

(** ** The deferred cleanup and the whole call *)

Section Call.

Variable env : Env.

Lemma cleanup_no_error (s : State) :
  displayErr s = None ->
  snd (cleanup env s) =
    mkState None (exitCode s)
            (Frame.ShowCursor (snd (Frame.Append (fr s)))) (wg s)
            (trace s ++ [AAppend (nextLine s); AShowCursor]).
Proof.
  intros H. unfold cleanup, nextLine.
  cbv beta iota zeta delta
    [bind ret emit set_exitCode get_displayErr fr_Append fr_ShowCursor
     Frame.Append displayErr exitCode fr wg trace snd fst].
  destruct s as [d c f w tr]; cbn in *; subst d.
  now rewrite <- app_assoc.
Qed.

Lemma cleanup_error (s : State) (err : error) :
  displayErr s = Some err ->
  snd (cleanup env s) =
    mkState (Some err) (displayErrExitCode env err)
            (Frame.ShowCursor (snd (Frame.Append (fr s)))) (wg s)
            (trace s ++ [AAppend (nextLine s); AShowCursor;
                         AStderr displayFailureMsg; ALogError err]).
Proof.
  intros H. unfold cleanup, nextLine.
  cbv beta iota zeta delta
    [bind ret emit set_exitCode get_displayErr fr_Append fr_ShowCursor
     Frame.Append displayErr exitCode fr wg trace snd fst].
  destruct s as [d c f w tr]; cbn in *; subst d.
  now rewrite <- !app_assoc.
Qed.

(** The cleanup leaves [exitCode] alone unless a display error is
    pending. *)
Lemma cleanup_exitCode (s : State) :
  exitCode (snd (cleanup env s)) <> exitCode s -> displayErr s <> None.
Proof.
  intros H E. apply H. now rewrite (cleanup_no_error s E).
Qed.

Lemma cleanup_barrier (s : State) :
  barrierRespected (trace s) = true ->
  pending (monitor (trace s)) = wg s ->
  barrierRespected (trace (snd (cleanup env s))) = true /\
  pending (monitor (trace (snd (cleanup env s)))) = wg (snd (cleanup env s)).
Proof.
  unfold barrierRespected, monitor.
  remember (fold_left observe (trace s) (mkBarrier O false None true))
    as b eqn:Eb.
  destruct b as [p w c r]. intros [Hr Hs]%andb_prop Hp.
  cbn in Hr, Hp. subst r p.
  destruct (displayErr s) as [err|] eqn:E.
  - rewrite (cleanup_error s err E). cbn [trace wg].
    rewrite fold_left_app, <- Eb. cbn. rewrite Hs. auto.
  - rewrite (cleanup_no_error s E). cbn [trace wg].
    rewrite fold_left_app, <- Eb. cbn. rewrite Hs. auto.
Qed.

Lemma DisplayEvents_final (ch : Chan) :
  final (DisplayEvents env ch) =
    snd (cleanup env (loopState env (events ch) initState)) \/
  (final (DisplayEvents env ch) = loopState env (events ch) initState /\
   outcome (DisplayEvents env ch) = Blocks).
Proof.
  unfold DisplayEvents, loopState.
  destruct (eventLoop env (events ch) initState) as [[[| |] s] rest];
    cbn; auto.
  destruct (closed ch); cbn; auto.
Qed.

Lemma eventLoop_barrier (evs : list Event) (s : State) :
  barrierRespected (trace s) = true ->
  pending (monitor (trace s)) = wg s ->
  barrierRespected (trace (loopState env evs s)) = true /\
  pending (monitor (trace (loopState env evs s))) =
    wg (loopState env evs s).
Proof.
  unfold loopState. revert s.
  induction evs as [|e evs IH]; intros s H Hp; cbn [eventLoop fst snd]; auto.
  pose proof (loopBody_barrier env e s H Hp) as [Hb Hq].
  destruct (loopBody env e s) as [[[|]|] s']; cbn [fst snd] in *; auto.
Qed.

Lemma eventLoop_cursorShown (evs : list Event) (s : State) :
  cursorShown (trace (loopState env evs s)) = cursorShown (trace s).
Proof.
  unfold loopState. revert s.
  induction evs as [|e evs IH]; intros s; cbn; auto.
  pose proof (loopBody_cursorShown env e s) as Hb.
  destruct (loopBody env e s) as [[[|]|] s']; cbn in *; auto.
  now rewrite IH.
Qed.

Lemma eventLoop_wellTyped (evs : list Event) (s : State) :
  forallb wellTyped evs = true ->
  fst (fst (eventLoop env evs s)) <> Panicked.
Proof.
  revert s. induction evs as [|e evs IH]; intros s; cbn; [discriminate|].
  intros [He Hevs]%andb_prop.
  pose proof (loopBody_wellTyped env e s He) as Hp.
  destruct (loopBody env e s) as [[[|]|] s']; cbn in *;
    [now apply IH | discriminate | congruence].
Qed.

Lemma eventLoop_exitCode (evs : list Event) (s : State) :
  forallb (fun e => negb (isErrorType (Type_ e))) evs = true ->
  exitCode (loopState env evs s) = exitCode s.
Proof.
  unfold loopState. revert s.
  induction evs as [|e evs IH]; intros s; cbn; auto.
  intros [He Hevs]%andb_prop. apply negb_true_iff in He.
  pose proof (loopBody_exitCode env e s He) as Hb.
  destruct (loopBody env e s) as [[[|]|] s']; cbn in *; auto.
  now rewrite IH.
Qed.

Lemma DisplayEvents_cleanup (ch : Chan) :
  fst (fst (eventLoop env (events ch) initState)) <> ChanEmpty \/
  closed ch = true ->
  final (DisplayEvents env ch) =
    snd (cleanup env (loopState env (events ch) initState)) /\
  loopExit (DisplayEvents env ch) =
    fst (fst (eventLoop env (events ch) initState)) /\
  unread (DisplayEvents env ch) = snd (eventLoop env (events ch) initState).
Proof.
  unfold DisplayEvents, loopState.
  destruct (eventLoop env (events ch) initState) as [[[| |] s] rest];
    cbn; auto.
  intros [H | ->]; [congruence | cbn; auto].
Qed.

Lemma eventLoop_quiet (evs : list Event) (s : State) :
  (forall n txt, renderResult env n txt = None) ->
  (forall h n v, handlerResult env h n v = None) ->
  forallb (fun e => negb (isErrorType (Type_ e))) evs = true ->
  forallb presentsOk evs = true ->
  displayErr s = None ->
  displayErr (loopState env evs s) = None /\
  fst (fst (eventLoop env evs s)) <> Panicked /\
  (fst (fst (eventLoop env evs s)) = ChanEmpty ->
   forallb (fun e => ignored (Type_ e) || negb (IsEnd e)) evs = true).
Proof.
  intros Hr Hh. unfold loopState. revert s.
  induction evs as [|e evs IH]; intros s; cbn.
  - intros _ _ Hd. repeat split; auto. discriminate.
  - intros [He Hevs]%andb_prop [Hp Hps]%andb_prop Hd.
    apply negb_true_iff in He.
    destruct (loopBody_quiet env e s Hr Hh He Hp Hd) as [Hc Hd'].
    destruct (loopBody env e s) as [st s']; cbn in *. subst st.
    destruct (ignored (Type_ e)), (IsEnd e); cbn;
      try (destruct (IH s' Hevs Hps Hd') as (? & ? & ?);
           repeat split; auto);
      repeat split; auto; discriminate.
Qed.

End Call.

(** The scenario of the specification: a scan starts, a message, the
    result with an empty footer. *)
Example scenario_scan :
  let r := DisplayEvents okEnv
             (mkChan [scanStarted; found3; scanFinished (results "" None)]
                     false) in
  outcome r = Returns /\
  exitCode (final r) = 0 /\
  Frame.rendered (fr (final r)) =
    [Sprint Bold (VString "found 3 issues"); Sprint Bold (VString "Results")] /\
  barrierRespected (trace (final r)) = true.
Proof. repeat split; reflexivity. Qed.

(** The second scenario: one error event with exit code 74. *)
Example scenario_disk_full :
  let r := DisplayEvents okEnv (mkChan [diskFull true] false) in
  outcome r = Exits 74 /\
  Frame.rendered (fr (final r)) = [ErrorLine (VError "disk full")].
Proof. split; reflexivity. Qed.

(** The monitor refuses a synchronized render that no wait precedes, one
    that follows a registration made after the wait, an iteration for a
    synchronized event that does nothing, and a call of the presenter made
    before the wait. *)
Example monitor_refuses_iteration_without_wait :
  barrierRespected [ADequeue found3] = false /\
  barrierRespected [ADequeue found3; ADequeue newVersion] = false.
Proof. split; reflexivity. Qed.

Example monitor_refuses_present_before_wait :
  barrierRespected
    [ADequeue (scanFinished (results "" None));
     APresent (results "" None); AWait] = false.
Proof. reflexivity. Qed.

Example monitor_refuses_render_without_wait :
  barrierRespected
    [ADequeue found3; AAppend 0;
     ARender 0 (Sprint Bold (VString "found 3 issues")) None] = false.
Proof. reflexivity. Qed.

Example monitor_refuses_render_after_registration :
  barrierRespected
    [ADequeue found3; AWait; ARegister AnalyzeStartedHandler 0 VNil;
     AAppend 1; ARender 1 (Sprint Bold (VString "found 3 issues")) None]
  = false.
Proof. reflexivity. Qed.

(** ** The claims *)

(** C3: for every event of a synchronized kind (message-detected,
    validate-succeeded, scan-finished, validate-with-violations) the loop
    waits on the barrier before it does anything else for that event.
    In every run the monitor accepts the trace: each iteration for such
    an event waits, and every line it appends, every render and every call
    of the presenter comes after that wait with no sub-task registered in
    between; the sub-tasks the monitor counts as pending are those of the
    wait group.  In the iteration itself the wait is the first action,
    nothing is registered after it, the wait group is empty at its end,
    and the render happens, after the wait, when the payload has the
    expected type. *)
Theorem synchronized_render_waits_for_barrier :
  (forall (env : Env) (ch : Chan),
      barrierRespected (trace (final (DisplayEvents env ch))) = true /\
      pending (monitor (trace (final (DisplayEvents env ch)))) =
        wg (final (DisplayEvents env ch))) /\
  (forall (env : Env) (e : Event) (s : State),
      synchronized (Type_ e) = true ->
      exists acts,
        trace (snd (loopBody env e s)) =
          trace s ++ ADequeue e :: AWait :: acts /\
        forallb (fun a => negb (isRegister a) && negb (isWait a)) acts
          = true /\
        wg (snd (loopBody env e s)) = O /\
        (wellTyped e = true -> existsb isRender acts = true)).
Proof.
  split.
  - intros env ch.
    pose proof (eventLoop_barrier env (events ch) initState eq_refl eq_refl)
      as [H Hp].
    destruct (DisplayEvents_final env ch) as [-> | [-> _]]; auto.
    now apply cleanup_barrier.
  - intros env e s. apply loopBody_synchronized.
Qed.

Lemma synchronized_render_waits_for_barrier_witness :
  exists acts,
    trace (snd (loopBody okEnv found3
                  (loopState okEnv [scanStarted] initState))) =
      trace (loopState okEnv [scanStarted] initState) ++
      ADequeue found3 :: AWait :: acts /\
    forallb (fun a => negb (isRegister a) && negb (isWait a)) acts = true /\
    wg (snd (loopBody okEnv found3
               (loopState okEnv [scanStarted] initState))) = O /\
    (wellTyped found3 = true -> existsb isRender acts = true).
Proof.
  exact (proj2 synchronized_render_waits_for_barrier okEnv found3
           (loopState okEnv [scanStarted] initState) eq_refl).
Defined.

(** C8: for a scan-finished or validate-with-violations event that carries
    a presenter, the iteration waits, appends a blank line and the title
    line, renders the title, appends a blank line, calls [Present] once,
    and then appends and renders a footer line exactly when the footer is
    not empty. *)
Theorem finished_event_title_present_footer
  (env : Env) (e : Event) (p : Presenter.t) (s : State) :
  finished (Type_ e) = true ->
  Value e = VPresenter p ->
  trace (snd (loopBody env e s)) =
    trace s ++
    [ADequeue e; AWait; AAppend (nextLine s); AAppend (S (nextLine s));
     ARender (S (nextLine s)) (titleText p)
       (renderResult env (S (nextLine s)) (titleText p));
     AAppend (S (S (nextLine s))); APresent p] ++
    (if String.eqb (Presenter.Footer p) EmptyString
     then []
     else [AAppend (S (S (S (nextLine s))));
           ARender (S (S (S (nextLine s)))) (footerText p)
             (renderResult env (S (S (S (nextLine s)))) (footerText p))]).
Proof.
  intros Hty Hv.
  destruct (loopBody_finished env e p s Hty Hv) as (_ & _ & _ & _ & ->).
  unfold finishedActions, hasFooter.
  now destruct (String.eqb (Presenter.Footer p) EmptyString).
Qed.

Lemma finished_event_title_present_footer_witness :
  trace (snd (loopBody okEnv (scanFinished (results "3 issues" None))
                       initState)) =
    [AHideCursor; ADequeue (scanFinished (results "3 issues" None)); AWait;
     AAppend 0; AAppend 1;
     ARender 1 (Sprint Bold (VString "Results")) None;
     AAppend 2; APresent (results "3 issues" None);
     AAppend 3; ARender 3 (Sprint Bold (VString "3 issues")) None].
Proof.
  exact (finished_event_title_present_footer okEnv
           (scanFinished (results "3 issues" None))
           (results "3 issues" None) initState eq_refl eq_refl).
Defined.

(** C9: when every error-detected event is a [*bus.ErrorEvent] and every
    scan-finished or validate-with-violations event carries a presenter,
    the loop does not panic; a stream with an error-detected event of
    another dynamic type, and one with a scan-finished event of another
    payload, make the loop panic. *)
Theorem panics_only_at_ill_typed_events :
  (forall (env : Env) (ch : Chan),
      forallb wellTyped (events ch) = true ->
      loopExit (DisplayEvents env ch) <> Panicked /\
      outcome (DisplayEvents env ch) <> Panics) /\
  (forall (env : Env) (cl : bool),
      wellTyped untypedError = false /\
      loopExit (DisplayEvents env (mkChan [untypedError] cl)) = Panicked) /\
  (forall (env : Env) (cl : bool),
      wellTyped untypedResult = false /\
      loopExit (DisplayEvents env (mkChan [untypedResult] cl)) = Panicked /\
      outcome (DisplayEvents env (mkChan [untypedResult] cl)) = Panics).
Proof.
  split; [|split].
  - intros env ch H.
    pose proof (eventLoop_wellTyped env (events ch) initState H) as Hp.
    unfold DisplayEvents.
    destruct (eventLoop env (events ch) initState) as [[[| |] s] rest];
      cbn in *; try congruence.
    + split; [discriminate|].
      destruct (0 <? exitCode (snd (cleanup env s))); discriminate.
    + destruct (closed ch); cbn; split; try discriminate.
      destruct (0 <? exitCode (snd (cleanup env s))); discriminate.
  - intros env cl. split; [reflexivity|].
    unfold DisplayEvents; cbn.
    destruct (loopBody_error_panics env untypedError initState eq_refl eq_refl)
      as (Hp & _).
    destruct (loopBody env untypedError initState) as [[[|]|] s'];
      cbn in *; try discriminate. reflexivity.
  - intros env cl. split; [reflexivity|].
    unfold DisplayEvents; cbn.
    rewrite (loopBody_finished_panics env untypedResult initState
               eq_refl eq_refl).
    cbn. split; reflexivity.
Qed.

Lemma panics_only_at_ill_typed_events_witness :
  loopExit (DisplayEvents okEnv
              (mkChan [scanStarted; found3; scanFinished (results "" None)]
                      false)) <> Panicked /\
  outcome (DisplayEvents okEnv
             (mkChan [scanStarted; found3; scanFinished (results "" None)]
                     false)) <> Panics.
Proof.
  exact (proj1 panics_only_at_ill_typed_events okEnv
           (mkChan [scanStarted; found3; scanFinished (results "" None)]
                   false) eq_refl).
Defined.

(** C10: the exit code starts at 0; an iteration for an event of any kind
    but error-detected leaves it as it was, so a stream without such an
    event leaves the loop with the code it had; after the loop, the code
    differs from the one the loop left only when a display error was
    pending at the cleanup. *)
Theorem exit_code_changes_only_at_error_event_and_cleanup :
  exitCode initState = 0 /\
  (forall (env : Env) (e : Event) (s : State),
      isErrorType (Type_ e) = false ->
      exitCode (snd (loopBody env e s)) = exitCode s) /\
  (forall (env : Env) (evs : list Event) (s : State),
      forallb (fun e => negb (isErrorType (Type_ e))) evs = true ->
      exitCode (loopState env evs s) = exitCode s) /\
  (forall (env : Env) (ch : Chan),
      exitCode (final (DisplayEvents env ch)) <>
      exitCode (loopState env (events ch) initState) ->
      displayErr (loopState env (events ch) initState) <> None).
Proof.
  repeat split.
  - apply loopBody_exitCode.
  - apply eventLoop_exitCode.
  - intros env ch H.
    destruct (DisplayEvents_final env ch) as [E | [E _]]; rewrite E in H.
    + now apply (cleanup_exitCode env).
    + congruence.
Qed.

Lemma exit_code_changes_only_at_error_event_and_cleanup_witness :
  exitCode (snd (loopBody brokenPipeEnv found3 initState)) = 0 /\
  exitCode (loopState handlerFailsEnv [found3; pullImage; newVersion]
              initState) = 0.
Proof.
  split.
  - exact (proj1 (proj2 exit_code_changes_only_at_error_event_and_cleanup)
             brokenPipeEnv found3 initState eq_refl).
  - exact (proj1 (proj2 (proj2
             exit_code_changes_only_at_error_event_and_cleanup))
             handlerFailsEnv [found3; pullImage; newVersion] initState
             eq_refl).
Defined.

(** C1, as stated, fails: an error-detected event whose terminal flag is
    not set and whose line is rendered does not stop the loop.  Here the
    event after it is received and rendered as well. *)
Lemma error_event_without_end_flag_does_not_stop :
  unread (DisplayEvents okEnv (mkChan [diskFull false; newVersion] true)) = []
  /\ In (ADequeue newVersion)
        (trace (final (DisplayEvents okEnv
                         (mkChan [diskFull false; newVersion] true))))
  /\ Frame.rendered
       (fr (final (DisplayEvents okEnv
                     (mkChan [diskFull false; newVersion] true)))) =
     [ErrorLine (VError "disk full"); Sprint Magenta (VString "v2")].
Proof.
  split; [reflexivity|]. split; [|reflexivity].
  vm_compute. do 4 right. left. reflexivity.
Qed.

(** C1, amended: when the loop reaches an error-detected event that carries
    the exit code [c > 0], it stops at that event if the event's terminal
    flag is set or its render fails; if the flag is set and the render
    succeeds the process exits with code [c]; if the flag is not set and
    the render succeeds the loop goes on with the next event, [c] being
    the pending exit code. *)
Theorem error_event_stops_loop_when_terminal_or_unrendered
  (env : Env) (pre post : list Event) (e : Event) (c : Z) (s : State)
  (cl : bool) :
  eventLoop env pre initState = (ChanEmpty, s, []) ->
  Type_ e = NewErrorDetected ->
  errorEvent e = Some c ->
  0 < c ->
  (IsEnd e = true \/
   renderResult env (nextLine s) (ErrorLine (Value e)) <> None ->
   loopExit (DisplayEvents env (mkChan (pre ++ e :: post) cl)) = Broke /\
   unread (DisplayEvents env (mkChan (pre ++ e :: post) cl)) = post) /\
  (IsEnd e = true ->
   renderResult env (nextLine s) (ErrorLine (Value e)) = None ->
   outcome (DisplayEvents env (mkChan (pre ++ e :: post) cl)) = Exits c /\
   exitCode (final (DisplayEvents env (mkChan (pre ++ e :: post) cl))) = c) /\
  (IsEnd e = false ->
   renderResult env (nextLine s) (ErrorLine (Value e)) = None ->
   exists s',
     eventLoop env (pre ++ e :: post) initState = eventLoop env post s' /\
     exitCode s' = c /\ displayErr s' = None).
Proof.
  intros Hpre Hty Hee Hc.
  pose proof (loopBody_error env e c s Hty Hee) as Hb.
  assert (Hloop : eventLoop env (pre ++ e :: post) initState =
                  eventLoop env (e :: post) s)
    by now apply eventLoop_app.
  unfold stopAfter in Hb.
  split; [|split].
  - intros Hstop.
    assert (Hbrk : IsEnd e || isSome (renderResult env (nextLine s)
                                         (ErrorLine (Value e))) = true).
    { destruct Hstop as [-> | Hr]; [reflexivity|].
      destruct (renderResult env _ _); [apply orb_true_r | congruence]. }
    rewrite Hbrk in Hb.
    unfold DisplayEvents; cbn [events]. rewrite Hloop. cbn [eventLoop].
    rewrite Hb. cbn. auto.
  - intros Hend Hr. rewrite Hend, Hr in Hb. cbn in Hb.
    unfold DisplayEvents; cbn [events]. rewrite Hloop. cbn [eventLoop].
    rewrite Hb. cbn [outcome final].
    rewrite cleanup_no_error by reflexivity. cbn [exitCode].
    apply Z.ltb_lt in Hc. rewrite Hc. auto.
  - intros Hend Hr. rewrite Hend, Hr in Hb. cbn in Hb.
    eexists. rewrite Hloop. cbn [eventLoop]. rewrite Hb.
    split; [reflexivity|]. split; reflexivity.
Qed.

Lemma error_event_stops_loop_when_terminal_or_unrendered_witness :
  (loopExit (DisplayEvents okEnv
               (mkChan ([scanStarted] ++ diskFull true :: [newVersion])
                       false)) = Broke /\
   unread (DisplayEvents okEnv
             (mkChan ([scanStarted] ++ diskFull true :: [newVersion])
                     false)) = [newVersion]) /\
  (outcome (DisplayEvents okEnv
              (mkChan ([scanStarted] ++ diskFull true :: [newVersion])
                      false)) = Exits 74 /\
   exitCode (final (DisplayEvents okEnv
                      (mkChan ([scanStarted] ++ diskFull true :: [newVersion])
                              false))) = 74).
Proof.
  pose proof (error_event_stops_loop_when_terminal_or_unrendered
                okEnv [scanStarted] [newVersion] (diskFull true) 74
                (loopState okEnv [scanStarted] initState) false
                eq_refl eq_refl eq_refl eq_refl) as (H1 & H2 & _).
  split.
  - exact (H1 (or_introl eq_refl)).
  - exact (H2 eq_refl eq_refl).
Defined.

(** C4, as stated, fails: when the render of the error line fails, the
    cleanup replaces the exit code taken from the event (74 at the end of
    the loop) by the exit code of the display failure.  No choice of that
    code keeps the event's code for every event. *)
Lemma error_render_failure_loses_event_code :
  (exitCode (loopState brokenPipeEnv [diskFull true] initState) = 74 /\
   displayErr (final (DisplayEvents brokenPipeEnv
                        (mkChan [diskFull true] true))) = Some "broken pipe" /\
   outcome (DisplayEvents brokenPipeEnv (mkChan [diskFull true] true)) =
     Exits 1) /\
  ~ (exists code : error -> Z,
       forall c : Z,
         0 < c ->
         exitCode
           (final
              (DisplayEvents
                 (mkEnv (fun _ _ => Some "broken pipe") (fun _ _ _ => None)
                        code)
                 (mkChan [mkEvent NewErrorDetected (VError "disk full") true
                            (Some c)] true))) = c).
Proof.
  split; [repeat split|].
  intros [code H].
  pose proof (H 1 eq_refl) as H1. pose proof (H 2 eq_refl) as H2.
  vm_compute in H1, H2. congruence.
Qed.

(** C4, amended: when the loop reaches an error-detected event whose
    render fails, the loop stops there with that failure as the display
    error and the event's code as the exit code; the cleanup then replaces
    the exit code by the code of the display failure, which decides how
    the process ends. *)
Theorem error_render_failure_exits_with_display_code
  (env : Env) (pre post : list Event) (e : Event) (c : Z) (err : error)
  (s : State) (cl : bool) :
  eventLoop env pre initState = (ChanEmpty, s, []) ->
  Type_ e = NewErrorDetected ->
  errorEvent e = Some c ->
  renderResult env (nextLine s) (ErrorLine (Value e)) = Some err ->
  loopExit (DisplayEvents env (mkChan (pre ++ e :: post) cl)) = Broke /\
  unread (DisplayEvents env (mkChan (pre ++ e :: post) cl)) = post /\
  displayErr (loopState env (pre ++ e :: post) initState) = Some err /\
  exitCode (loopState env (pre ++ e :: post) initState) = c /\
  displayErr (final (DisplayEvents env (mkChan (pre ++ e :: post) cl))) =
    Some err /\
  exitCode (final (DisplayEvents env (mkChan (pre ++ e :: post) cl))) =
    displayErrExitCode env err /\
  outcome (DisplayEvents env (mkChan (pre ++ e :: post) cl)) =
    (if 0 <? displayErrExitCode env err
     then Exits (displayErrExitCode env err)
     else Returns).
Proof.
  intros Hpre Hty Hee Hr.
  pose proof (loopBody_error env e c s Hty Hee) as Hb.
  unfold stopAfter in Hb. rewrite Hr in Hb. cbn [isSome] in Hb.
  rewrite orb_true_r in Hb.
  unfold DisplayEvents, loopState; cbn [events].
  rewrite (eventLoop_app env pre (e :: post) initState s Hpre).
  cbn [eventLoop]. rewrite Hb. cbn [fst snd loopExit unread final outcome].
  rewrite cleanup_error with (err := err) by reflexivity.
  cbn. repeat split.
Qed.

Lemma error_render_failure_exits_with_display_code_witness :
  loopExit (DisplayEvents brokenPipeEnv
              (mkChan ([] ++ diskFull false :: [newVersion]) true)) = Broke /\
  unread (DisplayEvents brokenPipeEnv
            (mkChan ([] ++ diskFull false :: [newVersion]) true)) =
    [newVersion] /\
  displayErr (loopState brokenPipeEnv ([] ++ diskFull false :: [newVersion])
                initState) = Some "broken pipe" /\
  exitCode (loopState brokenPipeEnv ([] ++ diskFull false :: [newVersion])
              initState) = 74 /\
  displayErr (final (DisplayEvents brokenPipeEnv
                       (mkChan ([] ++ diskFull false :: [newVersion]) true))) =
    Some "broken pipe" /\
  exitCode (final (DisplayEvents brokenPipeEnv
                     (mkChan ([] ++ diskFull false :: [newVersion]) true))) =
    1 /\
  outcome (DisplayEvents brokenPipeEnv
             (mkChan ([] ++ diskFull false :: [newVersion]) true)) = Exits 1.
Proof.
  exact (error_render_failure_exits_with_display_code
           brokenPipeEnv [] [newVersion] (diskFull false) 74 "broken pipe"
           initState true eq_refl eq_refl eq_refl eq_refl).
Defined.

(** C2, as stated, fails: the stream below ends in a terminal event, has
    no error-detected event, and every render succeeds, but the presenter
    fails to present; the failure is the display error at the cleanup and
    the process exits with the code of the display failure. *)
Lemma presenter_failure_exits_nonzero :
  outcome (DisplayEvents okEnv
             (mkChan [scanStarted;
                      scanFinished (results "" (Some "stdout closed"))]
                     true)) = Exits 1 /\
  displayErr (final (DisplayEvents okEnv
                       (mkChan [scanStarted;
                                scanFinished
                                  (results "" (Some "stdout closed"))]
                               true))) =
    Some "failed to show vulnerability results: stdout closed".
Proof. split; reflexivity. Qed.

(** C2, amended: for a stream that ends in a terminal event and has no
    error-detected event, when every render and every registration of a
    sub-task succeeds, every result event carries a presenter that
    presents without an error, and the last event is of a handled kind or
    the channel is closed after it, the call runs the cleanup once (one
    more line appended, the cursor shown once and visible at the end),
    no display error is pending, and it returns with exit code 0. *)
Theorem terminal_stream_without_failures_returns
  (env : Env) (pre : list Event) (last : Event) (cl : bool) :
  (forall n txt, renderResult env n txt = None) ->
  (forall h n v, handlerResult env h n v = None) ->
  forallb (fun e => negb (isErrorType (Type_ e))) (pre ++ [last]) = true ->
  forallb presentsOk (pre ++ [last]) = true ->
  IsEnd last = true ->
  cl = true \/ ignored (Type_ last) = false ->
  outcome (DisplayEvents env (mkChan (pre ++ [last]) cl)) = Returns /\
  exitCode (final (DisplayEvents env (mkChan (pre ++ [last]) cl))) = 0 /\
  displayErr (final (DisplayEvents env (mkChan (pre ++ [last]) cl))) = None /\
  trace (final (DisplayEvents env (mkChan (pre ++ [last]) cl))) =
    trace (loopState env (pre ++ [last]) initState) ++
    [AAppend (nextLine (loopState env (pre ++ [last]) initState));
     AShowCursor] /\
  cursorShown (trace (final (DisplayEvents env (mkChan (pre ++ [last]) cl))))
    = 1%nat /\
  Frame.cursorHidden
    (fr (final (DisplayEvents env (mkChan (pre ++ [last]) cl)))) = false.
Proof.
  intros Hr Hh Hne Hp Hend Hlast.
  destruct (eventLoop_quiet env (pre ++ [last]) initState Hr Hh Hne Hp eq_refl)
    as (Hd & Hnp & Hce).
  pose proof (eventLoop_exitCode env (pre ++ [last]) initState Hne) as Hc.
  pose proof (eventLoop_cursorShown env (pre ++ [last]) initState) as Hs.
  assert (Hrun : fst (fst (eventLoop env (pre ++ [last]) initState))
                 <> ChanEmpty \/ cl = true).
  { destruct (fst (fst (eventLoop env (pre ++ [last]) initState))) eqn:Ex;
      try (left; discriminate).
    destruct Hlast as [-> | Hi]; [now right|].
    specialize (Hce eq_refl). rewrite forallb_app in Hce.
    apply andb_prop in Hce as [_ Hl]. cbn in Hl.
    rewrite Hi, Hend in Hl. discriminate. }
  destruct (DisplayEvents_cleanup env (mkChan (pre ++ [last]) cl) Hrun)
    as (Hf & Hx & _).
  cbn [events] in Hf, Hx.
  assert (Ho : outcome (DisplayEvents env (mkChan (pre ++ [last]) cl)) =
               if 0 <? exitCode (final (DisplayEvents env
                                          (mkChan (pre ++ [last]) cl)))
               then Exits (exitCode (final (DisplayEvents env
                                              (mkChan (pre ++ [last]) cl))))
               else Returns).
  { unfold DisplayEvents in *. cbn [events closed] in *.
    destruct (eventLoop env (pre ++ [last]) initState) as [[[| |] s0] rest];
      cbn in *; try congruence.
    destruct Hrun as [? | ->]; [congruence | reflexivity]. }
  rewrite Ho, Hf, (cleanup_no_error env _ Hd). cbn [exitCode displayErr trace fr].
  rewrite Hc. cbn [exitCode initState].
  repeat split.
  rewrite cursorShown_app, Hs. reflexivity.
Qed.

Lemma terminal_stream_without_failures_returns_witness :
  outcome (DisplayEvents okEnv
             (mkChan ([scanStarted; found3] ++
                      [scanFinished (results "3 issues" None)]) false))
    = Returns /\
  exitCode (final (DisplayEvents okEnv
             (mkChan ([scanStarted; found3] ++
                      [scanFinished (results "3 issues" None)]) false)))
    = 0 /\
  cursorShown (trace (final (DisplayEvents okEnv
             (mkChan ([scanStarted; found3] ++
                      [scanFinished (results "3 issues" None)]) false))))
    = 1%nat.
Proof.
  pose proof (terminal_stream_without_failures_returns okEnv
                [scanStarted; found3] (scanFinished (results "3 issues" None))
                false (fun _ _ => eq_refl) (fun _ _ _ => eq_refl)
                eq_refl eq_refl eq_refl (or_intror eq_refl))
    as (H1 & H2 & _ & _ & H5 & _).
  exact (conj H1 (conj H2 H5)).
Defined.

(** C5, as stated, fails: an event of an ignored kind whose terminal flag
    is set does not stop the loop.  The event that follows is received
    and rendered; with nothing after it and the channel left open, the
    call stays blocked and the cleanup does not run. *)
Lemma ignored_terminal_event_does_not_stop :
  unread (DisplayEvents okEnv
            (mkChan [catalogerFinishedEnd; newVersion] true)) = [] /\
  Frame.rendered
    (fr (final (DisplayEvents okEnv
                  (mkChan [catalogerFinishedEnd; newVersion] true)))) =
    [Sprint Magenta (VString "v2")] /\
  outcome (DisplayEvents okEnv (mkChan [catalogerFinishedEnd] false)) =
    Blocks.
Proof. repeat split; reflexivity. Qed.

(** C5, amended: an event of a handled kind whose terminal flag is set is
    the last one the loop receives; an event of an ignored or unknown kind
    is skipped with no render and no change of state, and the loop goes on
    with the next event whatever its terminal flag. *)
Theorem terminal_event_stops_loop_unless_ignored
  (env : Env) (e : Event) (rest : list Event) (s : State) :
  IsEnd e = true ->
  (ignored (Type_ e) = false ->
   snd (eventLoop env (e :: rest) s) = rest /\
   fst (fst (eventLoop env (e :: rest) s)) <> ChanEmpty) /\
  (ignored (Type_ e) = true ->
   eventLoop env (e :: rest) s =
     eventLoop env rest
       (mkState (displayErr s) (exitCode s) (fr s) (wg s)
                (trace s ++ [ADequeue e]))).
Proof.
  intros Hend. split; intros Hi; cbn [eventLoop].
  - pose proof (loopBody_end env e s Hi Hend) as Hn.
    destruct (loopBody env e s) as [[[|]|] s']; cbn in *;
      try congruence; split; auto; discriminate.
  - now rewrite (loopBody_ignored env e s Hi).
Qed.

Lemma terminal_event_stops_loop_unless_ignored_witness :
  (snd (eventLoop okEnv (newVersion :: [found3]) initState) = [found3] /\
   fst (fst (eventLoop okEnv (newVersion :: [found3]) initState))
     <> ChanEmpty) /\
  eventLoop okEnv (catalogerFinishedEnd :: [found3]) initState =
    eventLoop okEnv [found3]
      (mkState None 0 (Frame.HideCursor Frame.NewFrame) O
               ([AHideCursor] ++ [ADequeue catalogerFinishedEnd])).
Proof.
  split.
  - exact (proj1 (terminal_event_stops_loop_unless_ignored
                    okEnv newVersion [found3] initState eq_refl) eq_refl).
  - exact (proj2 (terminal_event_stops_loop_unless_ignored
                    okEnv catalogerFinishedEnd [found3] initState eq_refl)
             eq_refl).
Defined.

(** C6, as stated, fails: when the registration of a sub-task returns an
    error the loop stops; the event that follows is never received. *)
Lemma registration_error_stops_loop :
  loopExit (DisplayEvents handlerFailsEnv
              (mkChan [pullImage; newVersion] true)) = Broke /\
  unread (DisplayEvents handlerFailsEnv
            (mkChan [pullImage; newVersion] true)) = [newVersion] /\
  outcome (DisplayEvents handlerFailsEnv
             (mkChan [pullImage; newVersion] true)) = Exits 1.
Proof. repeat split; reflexivity. Qed.

(** C6, amended: when the loop reaches an event of a delegated kind whose
    registration returns an error, the error is recorded as the display
    error and the loop stops at that event, the exit code being the one
    it had; the cleanup then sets the exit code of the display failure.
    When the registration succeeds and the event is not terminal, the
    loop goes on with the next event. *)
Theorem registration_error_is_recorded_and_stops_loop
  (env : Env) (pre post : list Event) (e : Event) (h : Handler) (s : State)
  (cl : bool) :
  eventLoop env pre initState = (ChanEmpty, s, []) ->
  delegated (Type_ e) = Some h ->
  (forall err : error,
      handlerResult env h (nextLine s) (Value e) = Some err ->
      loopExit (DisplayEvents env (mkChan (pre ++ e :: post) cl)) = Broke /\
      unread (DisplayEvents env (mkChan (pre ++ e :: post) cl)) = post /\
      displayErr (loopState env (pre ++ e :: post) initState) = Some err /\
      exitCode (loopState env (pre ++ e :: post) initState) = exitCode s /\
      exitCode (final (DisplayEvents env (mkChan (pre ++ e :: post) cl))) =
        displayErrExitCode env err) /\
  (handlerResult env h (nextLine s) (Value e) = None ->
   IsEnd e = false ->
   exists s',
     eventLoop env (pre ++ e :: post) initState = eventLoop env post s' /\
     displayErr s' = None /\ exitCode s' = exitCode s).
Proof.
  intros Hpre Hd.
  pose proof (loopBody_delegated env e h s Hd) as Hb.
  pose proof (eventLoop_app env pre (e :: post) initState s Hpre) as Hloop.
  unfold stopAfter in Hb. split.
  - intros err Hr. rewrite Hr in Hb. cbn [isSome] in Hb.
    rewrite orb_true_r in Hb.
    unfold DisplayEvents, loopState; cbn [events].
    rewrite Hloop. cbn [eventLoop]. rewrite Hb.
    cbn [fst snd loopExit unread final outcome].
    rewrite cleanup_error with (err := err) by reflexivity.
    cbn. repeat split.
  - intros Hr Hend. rewrite Hr, Hend in Hb. cbn in Hb.
    eexists. rewrite Hloop. cbn [eventLoop]. rewrite Hb.
    split; [reflexivity|]. split; reflexivity.
Qed.

Lemma registration_error_is_recorded_and_stops_loop_witness :
  loopExit (DisplayEvents handlerFailsEnv
              (mkChan ([found3] ++ pullImage :: [newVersion]) true)) = Broke /\
  unread (DisplayEvents handlerFailsEnv
            (mkChan ([found3] ++ pullImage :: [newVersion]) true)) =
    [newVersion] /\
  displayErr (loopState handlerFailsEnv ([found3] ++ pullImage :: [newVersion])
                initState) = Some "spinner failed" /\
  exitCode (loopState handlerFailsEnv ([found3] ++ pullImage :: [newVersion])
              initState) = 0 /\
  exitCode (final (DisplayEvents handlerFailsEnv
                     (mkChan ([found3] ++ pullImage :: [newVersion]) true))) =
    1.
Proof.
  exact (proj1 (registration_error_is_recorded_and_stops_loop
                  handlerFailsEnv [found3] [newVersion] pullImage
                  PullDockerImageHandler
                  (loopState handlerFailsEnv [found3] initState) true
                  eq_refl eq_refl)
           "spinner failed" eq_refl).
Defined.

(** C7: the code loses a recorded failure.  In the iteration of a result
    event the title render fails (first run) or the presenter fails
    (second run); the footer is not empty and its render succeeds, so the
    assignment of line 103 puts [nil] over the failure: no display error
    is pending at the cleanup and the call returns with exit code 0. *)
Lemma footer_render_overwrites_recorded_failure :
  (In (ARender 1 (Sprint Bold (VString "Results")) (Some "broken pipe"))
      (trace (final (DisplayEvents lineOneFailsEnv
                       (mkChan [scanFinished (results "3 issues" None)]
                               true)))) /\
   displayErr (final (DisplayEvents lineOneFailsEnv
                        (mkChan [scanFinished (results "3 issues" None)]
                                true))) = None /\
   outcome (DisplayEvents lineOneFailsEnv
              (mkChan [scanFinished (results "3 issues" None)] true)) =
     Returns) /\
  (displayErr (final (DisplayEvents okEnv
                        (mkChan [scanFinished
                                   (results "3 issues" (Some "stdout closed"))]
                                true))) = None /\
   outcome (DisplayEvents okEnv
              (mkChan [scanFinished
                         (results "3 issues" (Some "stdout closed"))]
                      true)) = Returns).
Proof.
  split; [split; [|split; reflexivity] | split; reflexivity].
  vm_compute. do 5 right. left. reflexivity.
Qed.

(** What holds of C7: a failed render of an iteration that renders once
    (the version line, a synchronized line, the error line) is the display
    error when the loop stops, and the loop stops at that event. *)
Lemma single_render_failure_is_pending
  (env : Env) (e : Event) (rest : list Event) (s : State) (txt : Text)
  (err : error) :
  (Type_ e = NewVersionAvailable /\ txt = Sprint Magenta (Value e)) \/
  ((Type_ e = NewMessageDetected \/ Type_ e = ValidateFinishedSuccessfully) /\
   txt = Sprint Bold (Value e)) ->
  renderResult env (nextLine s) txt = Some err ->
  exists s',
    eventLoop env (e :: rest) s = (Broke, s', rest) /\
    displayErr s' = Some err /\
    displayErr (snd (cleanup env s')) = Some err.
Proof.
  intros Hk Hr. cbn [eventLoop].
  destruct Hk as [[Hty ->] | [Hty ->]].
  - rewrite (loopBody_version env e s Hty). unfold stopAfter.
    rewrite Hr. cbn [isSome]. rewrite orb_true_r.
    eexists. split; [reflexivity|]. split; [reflexivity|].
    now rewrite cleanup_error with (err := err).
  - rewrite (loopBody_message env e s Hty). unfold stopAfter.
    rewrite Hr. cbn [isSome]. rewrite orb_true_r.
    eexists. split; [reflexivity|]. split; [reflexivity|].
    now rewrite cleanup_error with (err := err).
Qed.

(** ** Further properties of the loop *)

Section Further.

Variable env : Env.

(** The loop goes on to the next event only with no display error. *)
Lemma loopBody_next_no_error (e : Event) (s : State) :
  displayErr s = None ->
  fst (loopBody env e s) = Ok Next ->
  displayErr (snd (loopBody env e s)) = None.
Proof. paths env e; intros; try discriminate; auto. Qed.

Lemma loopBody_lastErrorCode (e : Event) (s : State) :
  exitCode (snd (loopBody env e s)) = lastErrorCode [e] (exitCode s).
Proof. unfold lastErrorCode. paths env e; reflexivity. Qed.

Lemma loopBody_waits (e : Event) (s : State) :
  waits (trace (snd (loopBody env e s))) =
  (waits (trace s) + if synchronized (Type_ e) then 1 else 0)%nat.
Proof.
  unfold waits. paths env e; rewrite filter_app, length_app; cbn; lia.
Qed.

Lemma loopBody_dequeued (e : Event) (s : State) :
  dequeued (trace (snd (loopBody env e s))) = dequeued (trace s) ++ [e].
Proof.
  unfold dequeued. paths env e; rewrite flat_map_app; reflexivity.
Qed.

Lemma loopBody_diagnostics (e : Event) (s : State) :
  printedDiagnostics (trace (snd (loopBody env e s))) =
    printedDiagnostics (trace s) /\
  loggedFailures (trace (snd (loopBody env e s))) =
    loggedFailures (trace s).
Proof.
  unfold printedDiagnostics, loggedFailures.
  paths env e; rewrite !flat_map_app; cbn; rewrite !app_nil_r; auto.
Qed.

Lemma loopBody_linesFresh (e : Event) (s : State) :
  linesFresh (trace s) = true ->
  appended (freshState (trace s)) = nextLine s ->
  linesFresh (trace (snd (loopBody env e s))) = true /\
  appended (freshState (trace (snd (loopBody env e s)))) =
    nextLine (snd (loopBody env e s)).
Proof.
  unfold linesFresh, freshState, nextLine.
  remember (fold_left observeFresh (trace s) (mkFresh O None true))
    as b eqn:Eb.
  destruct b as [k l f]. cbn [fresh appended]. intros -> ->.
  paths env e; rewrite fold_left_app, <- Eb; cbn; unfold usesLast; cbn;
    rewrite ?Nat.eqb_refl; cbn; auto.
Qed.

Lemma loopBody_cursorHidden (e : Event) (s : State) :
  Frame.cursorHidden (fr (snd (loopBody env e s))) =
  Frame.cursorHidden (fr s).
Proof. paths env e; reflexivity. Qed.

Lemma eventLoop_no_error (evs : list Event) (s : State) :
  displayErr s = None ->
  fst (fst (eventLoop env evs s)) = ChanEmpty ->
  displayErr (loopState env evs s) = None.
Proof.
  unfold loopState. revert s.
  induction evs as [|e evs IH]; intros s Hd; cbn; auto.
  pose proof (loopBody_next_no_error e s Hd) as Hn.
  destruct (loopBody env e s) as [[[|]|] s']; cbn in *;
    try discriminate.
  apply IH. now apply Hn.
Qed.

(** The events the loop received are a prefix of the stream; they decide
    the exit code, the number of waits and the list of receptions. *)
Lemma eventLoop_used (evs : list Event) (s : State) :
  exists used,
    evs = used ++ snd (eventLoop env evs s) /\
    exitCode (loopState env evs s) = lastErrorCode used (exitCode s) /\
    waits (trace (loopState env evs s)) =
      (waits (trace s) +
       length (filter (fun e => synchronized (Type_ e)) used))%nat /\
    dequeued (trace (loopState env evs s)) = dequeued (trace s) ++ used.
Proof.
  unfold loopState. revert s.
  induction evs as [|e evs IH]; intros s; cbn [eventLoop].
  - exists []. cbn. rewrite app_nil_r. repeat split; lia.
  - pose proof (loopBody_lastErrorCode e s) as Hc.
    pose proof (loopBody_waits e s) as Hw.
    pose proof (loopBody_dequeued e s) as Hq.
    destruct (loopBody env e s) as [[[|]|] s']; cbn [fst snd] in *.
    + destruct (IH s') as (used & Hu & Hc' & Hw' & Hq').
      exists (e :: used). repeat split.
      * cbn. now f_equal.
      * rewrite Hc', Hc. reflexivity.
      * rewrite Hw', Hw. cbn [filter].
        destruct (synchronized (Type_ e)); cbn [length]; lia.
      * rewrite Hq', Hq, <- app_assoc. reflexivity.
    + exists [e]. repeat split; auto.
      rewrite Hw. cbn [filter].
      destruct (synchronized (Type_ e)); cbn [length]; lia.
    + exists [e]. repeat split; auto.
      rewrite Hw. cbn [filter].
      destruct (synchronized (Type_ e)); cbn [length]; lia.
Qed.

Lemma eventLoop_diagnostics (evs : list Event) (s : State) :
  printedDiagnostics (trace (loopState env evs s)) =
    printedDiagnostics (trace s) /\
  loggedFailures (trace (loopState env evs s)) = loggedFailures (trace s).
Proof.
  unfold loopState. revert s.
  induction evs as [|e evs IH]; intros s; cbn [eventLoop]; auto.
  pose proof (loopBody_diagnostics e s) as [Hd Hl].
  destruct (loopBody env e s) as [[[|]|] s']; cbn [fst snd] in *; auto.
  destruct (IH s') as [Hd' Hl']. split; congruence.
Qed.

Lemma eventLoop_linesFresh (evs : list Event) (s : State) :
  linesFresh (trace s) = true ->
  appended (freshState (trace s)) = nextLine s ->
  linesFresh (trace (loopState env evs s)) = true /\
  appended (freshState (trace (loopState env evs s))) =
    nextLine (loopState env evs s).
Proof.
  unfold loopState. revert s.
  induction evs as [|e evs IH]; intros s H Hn; cbn [eventLoop fst snd]; auto.
  pose proof (loopBody_linesFresh e s H Hn) as [Hb Hm].
  destruct (loopBody env e s) as [[[|]|] s']; cbn [fst snd] in *; auto.
Qed.

Lemma eventLoop_cursorHidden (evs : list Event) (s : State) :
  Frame.cursorHidden (fr (loopState env evs s)) = Frame.cursorHidden (fr s).
Proof.
  unfold loopState. revert s.
  induction evs as [|e evs IH]; intros s; cbn [eventLoop]; auto.
  pose proof (loopBody_cursorHidden e s) as Hb.
  destruct (loopBody env e s) as [[[|]|] s']; cbn [fst snd] in *; auto.
  now rewrite IH.
Qed.

(** The cleanup, whatever the state. *)
Lemma cleanup_state (s : State) :
  trace (snd (cleanup env s)) = trace s ++ cleanupActions s /\
  displayErr (snd (cleanup env s)) = displayErr s /\
  exitCode (snd (cleanup env s)) =
    match displayErr s with
    | Some err => displayErrExitCode env err
    | None => exitCode s
    end /\
  Frame.cursorHidden (fr (snd (cleanup env s))) = false /\
  nextLine (snd (cleanup env s)) = S (nextLine s).
Proof.
  unfold cleanupActions.
  destruct (displayErr s) as [err|] eqn:E.
  - rewrite (cleanup_error env s err E). unfold nextLine. cbn.
    rewrite length_app. cbn. repeat split; auto; lia.
  - rewrite (cleanup_no_error env s E). unfold nextLine. cbn.
    rewrite length_app. cbn. repeat split; auto; lia.
Qed.

(** The call in terms of the loop: it blocks when the loop ran out of
    events on an open channel, and runs the cleanup otherwise. *)
Lemma DisplayEvents_loop (ch : Chan) :
  loopExit (DisplayEvents env ch) =
    fst (fst (eventLoop env (events ch) initState)) /\
  unread (DisplayEvents env ch) = snd (eventLoop env (events ch) initState) /\
  ((outcome (DisplayEvents env ch) = Blocks /\
    fst (fst (eventLoop env (events ch) initState)) = ChanEmpty /\
    closed ch = false /\
    final (DisplayEvents env ch) = loopState env (events ch) initState) \/
   (outcome (DisplayEvents env ch) <> Blocks /\
    (fst (fst (eventLoop env (events ch) initState)) <> ChanEmpty \/
     closed ch = true) /\
    final (DisplayEvents env ch) =
      snd (cleanup env (loopState env (events ch) initState)) /\
    outcome (DisplayEvents env ch) =
      if 0 <? exitCode (final (DisplayEvents env ch))
      then Exits (exitCode (final (DisplayEvents env ch)))
      else match fst (fst (eventLoop env (events ch) initState)) with
           | Panicked => Panics
           | _ => Returns
           end)).
Proof.
  unfold DisplayEvents, loopState.
  destruct (eventLoop env (events ch) initState) as [[[| |] s] rest];
    cbn [fst snd].
  - repeat split. right. cbn.
    destruct (0 <? exitCode (snd (cleanup env s)));
      repeat split; auto; try discriminate; left; discriminate.
  - repeat split. right. cbn.
    destruct (0 <? exitCode (snd (cleanup env s)));
      repeat split; auto; try discriminate; left; discriminate.
  - destruct (closed ch); cbn.
    + repeat split. right.
      destruct (0 <? exitCode (snd (cleanup env s)));
        repeat split; auto; discriminate.
    + repeat split. left. repeat split.
Qed.

End Further.

Section FurtherIteration.

Variable env : Env.

(** The error line for an event that is not a [*bus.ErrorEvent], in full:
    the line is appended and rendered, then the assertion panics. *)
Lemma loopBody_error_untyped (e : Event) (s : State) :
  Type_ e = NewErrorDetected ->
  errorEvent e = None ->
  loopBody env e s =
    (Panic,
     mkState (renderResult env (nextLine s) (ErrorLine (Value e)))
             (exitCode s)
             (frameAfterRender
                (renderResult env (nextLine s) (ErrorLine (Value e)))
                (ErrorLine (Value e)) (fr s))
             (wg s)
             (trace s ++ [ADequeue e; AAppend (nextLine s);
                          ARender (nextLine s) (ErrorLine (Value e))
                            (renderResult env (nextLine s)
                               (ErrorLine (Value e)))])).
Proof.
  destruct e as [ty v ie ee]; cbn; intros -> ->; run;
    rewrite <- !app_assoc; cbn;
    destruct (renderResult env _ _); reflexivity.
Qed.

(** A run of ignored events only receives them. *)
Lemma eventLoop_ignored (evs : list Event) (s : State) :
  forallb (fun e => ignored (Type_ e)) evs = true ->
  eventLoop env evs s =
    (ChanEmpty,
     mkState (displayErr s) (exitCode s) (fr s) (wg s)
             (trace s ++ map ADequeue evs),
     []).
Proof.
  revert s. induction evs as [|e evs IH]; intros s; cbn [forallb eventLoop map].
  - intros _. rewrite app_nil_r. now destruct s.
  - intros [He Hevs]%andb_prop.
    rewrite (loopBody_ignored env e s He), (IH _ Hevs). cbn.
    now rewrite <- app_assoc.
Qed.

Lemma reached_no_error (pre : list Event) (s : State) :
  eventLoop env pre initState = (ChanEmpty, s, []) ->
  displayErr s = None.
Proof.
  intros H.
  pose proof (eventLoop_no_error env pre initState eq_refl) as Hn.
  unfold loopState in Hn. rewrite H in Hn. now apply Hn.
Qed.

End FurtherIteration.

(** What the monitor of line handles accepts writes no line twice: the
    handles written are distinct, each below the number of lines
    appended. *)
Lemma observeFresh_fresh (b : Fresh) (a : Action) :
  fresh (observeFresh b a) = true -> fresh b = true.
Proof.
  destruct a; cbn; try tauto; now intros [H _]%andb_prop.
Qed.

Lemma linesFresh_written (tr : list Action) :
  linesFresh tr = true ->
  NoDup (written tr) /\
  (forall n, In n (written tr) -> (n < appended (freshState tr))%nat) /\
  (forall m, lastAppend (freshState tr) = Some m ->
             S m = appended (freshState tr) /\
             forall n, In n (written tr) -> (n < m)%nat).
Proof.
  unfold linesFresh, freshState, written.
  induction tr as [|a tr IH] using rev_ind.
  - intros _. cbn.
    split; [constructor | split; [intros n [] | intros; discriminate]].
  - rewrite fold_left_app, flat_map_app. cbn [fold_left flat_map].
    rewrite app_nil_r. intros H.
    pose proof (observeFresh_fresh _ _ H) as Hf.
    destruct (IH Hf) as (Hnd & Hlt & Hlast). clear IH.
    destruct (fold_left observeFresh tr (mkFresh O None true)) as [k l f].
    cbn in Hf, Hlt, Hlast. subst f.
    assert (Hwrite : forall n, usesLast (mkFresh k l true) n = true ->
              NoDup (flat_map
                       (fun a => match a with
                                 | ARender n _ _ => [n]
                                 | ARegister _ n _ => [n]
                                 | _ => []
                                 end) tr ++ [n]) /\
              forall x, In x (flat_map
                       (fun a => match a with
                                 | ARender n _ _ => [n]
                                 | ARegister _ n _ => [n]
                                 | _ => []
                                 end) tr ++ [n]) -> (x < k)%nat).
    { intros n Hu. unfold usesLast in Hu. cbn in Hu.
      destruct l as [m|]; [|discriminate].
      apply Nat.eqb_eq in Hu. subst m.
      destruct (Hlast n eq_refl) as [Hk Hbelow]. split.
      - apply NoDup_app; [exact Hnd | repeat constructor; intros [] |].
        intros x Hx [<- | []]. apply Hbelow in Hx. lia.
      - intros x [Hx | [<- | []]]%in_app_or; [now apply Hlt | lia]. }
    destruct a; cbn in H |- *; rewrite ?app_nil_r;
      try (split; [exact Hnd | split; [exact Hlt | intros; discriminate]]).
    + apply Nat.eqb_eq in H. subst line.
      split; [exact Hnd | split].
      * intros n Hn. apply Hlt in Hn. lia.
      * intros m [= <-]. split; [reflexivity | exact Hlt].
    + destruct (Hwrite line H) as [Hd Hb].
      split; [exact Hd | split; [exact Hb | intros; discriminate]].
    + destruct (Hwrite line H) as [Hd Hb].
      split; [exact Hd | split; [exact Hb | intros; discriminate]].
Qed.

(** The monitor of line handles refuses a render on a line appended
    earlier, a second render on one line, and a handle given out twice. *)
Example linesFresh_refuses_old_line :
  linesFresh [AAppend 0; AAppend 1; ARender 0 (ErrorLine VNil) None] = false.
Proof. reflexivity. Qed.

Example linesFresh_refuses_second_render :
  linesFresh [AAppend 0; ARender 0 (ErrorLine VNil) None;
              ARender 0 (ErrorLine VNil) None] = false.
Proof. reflexivity. Qed.

Example linesFresh_refuses_repeated_handle :
  linesFresh [AAppend 0; ARender 0 (ErrorLine VNil) None;
              AAppend 0; ARender 0 (ErrorLine VNil) None] = false.
Proof. reflexivity. Qed.

(** X1: an iteration starts with no display error pending: whenever the
    loop has run through a prefix of the stream without stopping, the
    display error is nil.  So a display error at the end of the loop
    means that the loop ended by [break] or by a panic, and the call is
    not left blocked on the channel. *)
Theorem display_error_pending_only_after_break_or_panic (env : Env) :
  (forall (pre : list Event) (s : State),
      eventLoop env pre initState = (ChanEmpty, s, []) ->
      displayErr s = None) /\
  (forall ch : Chan,
      displayErr (loopState env (events ch) initState) <> None ->
      loopExit (DisplayEvents env ch) <> ChanEmpty /\
      outcome (DisplayEvents env ch) <> Blocks).
Proof.
  split.
  - apply reached_no_error.
  - intros ch Hd.
    destruct (DisplayEvents_loop env ch) as (Hx & _ & H).
    assert (Hne : fst (fst (eventLoop env (events ch) initState))
                  <> ChanEmpty).
    { intros Hce. apply Hd.
      now apply (eventLoop_no_error env (events ch) initState eq_refl). }
    split; [now rewrite Hx|].
    destruct H as [(_ & Hce & _) | (Hnb & _)]; [contradiction | exact Hnb].
Qed.

Lemma display_error_pending_only_after_break_or_panic_witness :
  displayErr (loopState handlerFailsEnv [found3; diskFull false] initState)
  = None.
Proof.
  exact (proj1 (display_error_pending_only_after_break_or_panic
                  handlerFailsEnv)
           [found3; diskFull false]
           (loopState handlerFailsEnv [found3; diskFull false] initState)
           eq_refl).
Defined.

(** X2: where the final exit code comes from.  The events received are a
    prefix of the stream; the final exit code is the code of the display
    failure when a display error is pending at the end of the loop, and
    otherwise the code of the last error-detected event received (0 when
    there is none).  The process exits only with a positive code, and the
    call returns only with a code that is not positive. *)
Theorem final_exit_code_provenance (env : Env) (ch : Chan) :
  exists used,
    events ch = used ++ unread (DisplayEvents env ch) /\
    exitCode (final (DisplayEvents env ch)) =
      match displayErr (loopState env (events ch) initState) with
      | Some err => displayErrExitCode env err
      | None => lastErrorCode used 0
      end /\
    (forall c, outcome (DisplayEvents env ch) = Exits c ->
               0 < c /\ c = exitCode (final (DisplayEvents env ch))) /\
    (outcome (DisplayEvents env ch) = Returns ->
     exitCode (final (DisplayEvents env ch)) <= 0).
Proof.
  destruct (eventLoop_used env (events ch) initState)
    as (used & Hu & Hc & _ & _).
  change (exitCode initState) with 0 in Hc.
  destruct (DisplayEvents_loop env ch) as (_ & Hun & H).
  exists used. rewrite Hun. split; [exact Hu|].
  destruct H as [(Ho & Hce & _ & Hf) | (_ & _ & Hf & Ho)].
  - rewrite Hf, Ho.
    rewrite (eventLoop_no_error env (events ch) initState eq_refl Hce).
    repeat split; try discriminate. exact Hc.
  - split.
    + rewrite Hf.
      destruct (cleanup_state env (loopState env (events ch) initState))
        as (_ & _ & -> & _).
      destruct (displayErr (loopState env (events ch) initState)); auto.
    + rewrite Ho.
      destruct (0 <? exitCode (final (DisplayEvents env ch))) eqn:E.
      * split; [|discriminate]. intros c [= <-].
        split; [now apply Z.ltb_lt | reflexivity].
      * split; [intros c; destruct (fst (fst (eventLoop env (events ch)
                                                  initState)));
                discriminate|].
        intros _. now apply Z.ltb_ge.
Qed.

(** X3: an error-detected event whose exit code is not positive does not
    end the process: when the loop reaches it, its terminal flag is set
    and its line is rendered, the loop stops there and the call returns,
    the exit code being the event's. *)
Theorem error_event_with_nonpositive_code_returns
  (env : Env) (pre post : list Event) (e : Event) (c : Z) (s : State)
  (cl : bool) :
  eventLoop env pre initState = (ChanEmpty, s, []) ->
  Type_ e = NewErrorDetected ->
  errorEvent e = Some c ->
  c <= 0 ->
  IsEnd e = true ->
  renderResult env (nextLine s) (ErrorLine (Value e)) = None ->
  outcome (DisplayEvents env (mkChan (pre ++ e :: post) cl)) = Returns /\
  loopExit (DisplayEvents env (mkChan (pre ++ e :: post) cl)) = Broke /\
  unread (DisplayEvents env (mkChan (pre ++ e :: post) cl)) = post /\
  exitCode (final (DisplayEvents env (mkChan (pre ++ e :: post) cl))) = c.
Proof.
  intros Hpre Hty Hee Hc Hend Hr.
  pose proof (loopBody_error env e c s Hty Hee) as Hb.
  unfold stopAfter in Hb. rewrite Hend, Hr in Hb. cbn in Hb.
  unfold DisplayEvents; cbn [events].
  rewrite (eventLoop_app env pre (e :: post) initState s Hpre).
  cbn [eventLoop]. rewrite Hb. cbn [outcome loopExit unread final].
  rewrite cleanup_no_error by reflexivity. cbn [exitCode].
  apply Z.ltb_ge in Hc. rewrite Hc. repeat split.
Qed.

Lemma error_event_with_nonpositive_code_returns_witness :
  outcome (DisplayEvents okEnv
             (mkChan ([scanStarted] ++
                      mkEvent NewErrorDetected (VError "cancelled") true
                        (Some 0) :: [newVersion]) false)) = Returns /\
  loopExit (DisplayEvents okEnv
              (mkChan ([scanStarted] ++
                       mkEvent NewErrorDetected (VError "cancelled") true
                         (Some 0) :: [newVersion]) false)) = Broke /\
  unread (DisplayEvents okEnv
            (mkChan ([scanStarted] ++
                     mkEvent NewErrorDetected (VError "cancelled") true
                       (Some 0) :: [newVersion]) false)) = [newVersion] /\
  exitCode (final (DisplayEvents okEnv
             (mkChan ([scanStarted] ++
                      mkEvent NewErrorDetected (VError "cancelled") true
                        (Some 0) :: [newVersion]) false))) = 0.
Proof.
  apply (error_event_with_nonpositive_code_returns okEnv
           [scanStarted] [newVersion]
           (mkEvent NewErrorDetected (VError "cancelled") true (Some 0)) 0
           (loopState okEnv [scanStarted] initState) false);
    [reflexivity | reflexivity | reflexivity | lia | reflexivity
    | reflexivity].
Defined.

(** X4: the loop receives the events in the order of the stream, each
    once, up to the one where it stops, and it waits on the wait group
    once for each event of a synchronized kind it receives, and for no
    other. *)
Theorem loop_waits_once_per_synchronized_event (env : Env) (ch : Chan) :
  exists used,
    events ch = used ++ unread (DisplayEvents env ch) /\
    dequeued (trace (final (DisplayEvents env ch))) = used /\
    waits (trace (final (DisplayEvents env ch))) =
      length (filter (fun e => synchronized (Type_ e)) used).
Proof.
  destruct (eventLoop_used env (events ch) initState)
    as (used & Hu & _ & Hw & Hq).
  change (waits (trace initState)) with O in Hw.
  change (dequeued (trace initState)) with (@nil Event) in Hq.
  destruct (DisplayEvents_loop env ch) as (_ & Hun & H).
  exists used. rewrite Hun. split; [exact Hu|].
  destruct H as [(_ & _ & _ & ->) | (_ & _ & -> & _)]; [now split|].
  destruct (cleanup_state env (loopState env (events ch) initState))
    as (-> & _).
  unfold dequeued, waits in *.
  rewrite flat_map_app, filter_app, length_app, Hq, Hw.
  unfold cleanupActions.
  destruct (displayErr (loopState env (events ch) initState)); cbn;
    rewrite app_nil_r; split; auto; lia.
Qed.

(** X5: the calls of the loop write no line twice.  In every run the
    handles the loop gives to a render or to a handler are pairwise
    distinct; each is the handle that the [fr.Append()] just before the
    call returned, and the handles [fr.Append()] returns are the numbers
    0, 1, 2, ... in order, so a line is given out once.  (What the
    sub-task of a handler does with its line later is not a call of the
    loop.) *)
Theorem every_line_is_written_right_after_its_append
  (env : Env) (ch : Chan) :
  linesFresh (trace (final (DisplayEvents env ch))) = true /\
  NoDup (written (trace (final (DisplayEvents env ch)))) /\
  (forall n, In n (written (trace (final (DisplayEvents env ch)))) ->
             (n < nextLine (final (DisplayEvents env ch)))%nat).
Proof.
  assert (H : linesFresh (trace (final (DisplayEvents env ch))) = true /\
              appended (freshState (trace (final (DisplayEvents env ch)))) =
                nextLine (final (DisplayEvents env ch))).
  { pose proof (eventLoop_linesFresh env (events ch) initState
                  eq_refl eq_refl) as [H Hn].
    destruct (DisplayEvents_loop env ch)
      as (_ & _ & [(_ & _ & _ & ->) | (_ & _ & -> & _)]); auto.
    destruct (cleanup_state env (loopState env (events ch) initState))
      as (-> & _ & _ & _ & ->).
    unfold linesFresh, freshState in *. rewrite fold_left_app.
    destruct (fold_left observeFresh
                (trace (loopState env (events ch) initState))
                (mkFresh O None true)) as [k l f].
    cbn in H, Hn. subst f k. unfold cleanupActions.
    destruct (displayErr (loopState env (events ch) initState)); cbn;
      rewrite Nat.eqb_refl; auto. }
  destruct H as [H Hn].
  destruct (linesFresh_written _ H) as (Hnd & Hlt & _).
  rewrite Hn in Hlt. auto.
Qed.

(** X6: the diagnostic of the cleanup.  The loop itself never calls
    [fmt.Fprintln] and never logs.  In every run, the message
    "Failed to show the ui during the whole process" is printed by
    [fmt.Fprintln] once, and [logrus.Errorln] is called once, on the
    wrapper of the display error, exactly when a display error was pending
    at the end of the loop; otherwise neither call is made. *)
Theorem diagnostic_iff_display_error_pending (env : Env) (ch : Chan) :
  printedDiagnostics (trace (final (DisplayEvents env ch))) =
    match displayErr (loopState env (events ch) initState) with
    | Some _ => [displayFailureMsg]
    | None => []
    end /\
  loggedFailures (trace (final (DisplayEvents env ch))) =
    match displayErr (loopState env (events ch) initState) with
    | Some err => [mkDisplayFailure displayFailureMsg err]
    | None => []
    end /\
  printedDiagnostics (trace (loopState env (events ch) initState)) = [] /\
  loggedFailures (trace (loopState env (events ch) initState)) = [].
Proof.
  destruct (eventLoop_diagnostics env (events ch) initState) as [Hd Hl].
  change (printedDiagnostics (trace initState)) with (@nil string) in Hd.
  change (loggedFailures (trace initState)) with (@nil DisplayFailure) in Hl.
  split; [|split; [|split; assumption]].
  - destruct (DisplayEvents_loop env ch)
      as (_ & _ & [(_ & Hce & _ & ->) | (_ & _ & -> & _)]).
    + now rewrite (eventLoop_no_error env (events ch) initState eq_refl Hce).
    + destruct (cleanup_state env (loopState env (events ch) initState))
        as (-> & _).
      unfold printedDiagnostics in *. rewrite flat_map_app, Hd.
      unfold cleanupActions.
      destruct (displayErr (loopState env (events ch) initState)); cbn; auto.
  - destruct (DisplayEvents_loop env ch)
      as (_ & _ & [(_ & Hce & _ & ->) | (_ & _ & -> & _)]).
    + now rewrite (eventLoop_no_error env (events ch) initState eq_refl Hce).
    + destruct (cleanup_state env (loopState env (events ch) initState))
        as (-> & _).
      unfold loggedFailures in *. rewrite flat_map_app, Hl.
      unfold cleanupActions.
      destruct (displayErr (loopState env (events ch) initState)); cbn; auto.
Qed.

(** X7: the cleanup runs on every way out of the loop, a panic included.
    The call stays blocked exactly when the loop ran out of events on a
    channel left open; then the cursor stays hidden.  In every other run
    the trace ends with the actions of the cleanup: one line appended, the
    cursor shown, once, and visible at the end. *)
Theorem cleanup_runs_unless_blocked (env : Env) (ch : Chan) :
  (outcome (DisplayEvents env ch) = Blocks <->
   closed ch = false /\ loopExit (DisplayEvents env ch) = ChanEmpty) /\
  (outcome (DisplayEvents env ch) <> Blocks ->
   trace (final (DisplayEvents env ch)) =
     trace (loopState env (events ch) initState) ++
     cleanupActions (loopState env (events ch) initState) /\
   cursorShown (trace (final (DisplayEvents env ch))) = 1%nat /\
   Frame.cursorHidden (fr (final (DisplayEvents env ch))) = false /\
   nextLine (final (DisplayEvents env ch)) =
     S (nextLine (loopState env (events ch) initState))) /\
  (outcome (DisplayEvents env ch) = Blocks ->
   cursorShown (trace (final (DisplayEvents env ch))) = 0%nat /\
   Frame.cursorHidden (fr (final (DisplayEvents env ch))) = true).
Proof.
  pose proof (eventLoop_cursorShown env (events ch) initState) as Hs.
  pose proof (eventLoop_cursorHidden env (events ch) initState) as Hh.
  change (cursorShown (trace initState)) with O in Hs.
  change (Frame.cursorHidden (fr initState)) with true in Hh.
  destruct (DisplayEvents_loop env ch) as (Hx & _ & H).
  rewrite Hx.
  destruct H as [(Ho & Hce & Hcl & Hf) | (Hnb & Hrun & Hf & _)].
  - split; [|split].
    + split; auto.
    + intros Hn. contradiction.
    + intros _. rewrite Hf. auto.
  - split; [|split].
    + split; [intros Ho; contradiction|].
      intros [Hcl Hce]. destruct Hrun as [Hne | Hc]; congruence.
    + intros _. rewrite Hf.
      destruct (cleanup_state env (loopState env (events ch) initState))
        as (Ht & _ & _ & Hcur & Hn).
      rewrite Ht. repeat split; auto.
      rewrite cursorShown_app, Hs. unfold cleanupActions, cursorShown.
      destruct (displayErr (loopState env (events ch) initState));
        reflexivity.
    + intros Ho. contradiction.
Qed.

Lemma cleanup_runs_unless_blocked_witness :
  cursorShown (trace (final (DisplayEvents brokenPipeEnv
                               (mkChan [untypedError] false)))) = 1%nat /\
  Frame.cursorHidden (fr (final (DisplayEvents brokenPipeEnv
                                   (mkChan [untypedError] false)))) = false.
Proof.
  pose proof (proj1 (proj2 (cleanup_runs_unless_blocked brokenPipeEnv
                              (mkChan [untypedError] false))))
    as H.
  destruct H as (_ & H1 & H2 & _); [discriminate|].
  exact (conj H1 H2).
Defined.

(** X8: a stream of events of ignored kinds only, the empty stream
    included, leaves the state of the loop as it was, but for the
    receptions in the trace: no line is appended, nothing is rendered.  On
    a closed channel the call returns after the one blank line of the
    cleanup; on an open channel it stays blocked. *)
Theorem ignored_events_change_nothing
  (env : Env) (evs : list Event) (cl : bool) :
  forallb (fun e => ignored (Type_ e)) evs = true ->
  loopState env evs initState =
    mkState None 0 (fr initState) O (trace initState ++ map ADequeue evs) /\
  unread (DisplayEvents env (mkChan evs cl)) = [] /\
  outcome (DisplayEvents env (mkChan evs cl)) =
    (if cl then Returns else Blocks) /\
  Frame.lines (fr (final (DisplayEvents env (mkChan evs cl)))) =
    (if cl then [None] else []).
Proof.
  intros Hi.
  pose proof (eventLoop_ignored env evs initState Hi) as He.
  unfold loopState, DisplayEvents. cbn [events closed]. rewrite He.
  cbn [fst snd]. split; [reflexivity|].
  destruct cl; cbn [unread outcome final].
  - rewrite cleanup_no_error by reflexivity. cbn. repeat split.
  - repeat split.
Qed.

Lemma ignored_events_change_nothing_witness :
  loopState brokenPipeEnv
    [catalogerFinishedEnd; mkEvent (OtherType 7) (VString "x") false None]
    initState =
    mkState None 0 (fr initState) O
      (trace initState ++
       map ADequeue
         [catalogerFinishedEnd;
          mkEvent (OtherType 7) (VString "x") false None]) /\
  unread (DisplayEvents brokenPipeEnv
            (mkChan [catalogerFinishedEnd;
                     mkEvent (OtherType 7) (VString "x") false None] true))
    = [] /\
  outcome (DisplayEvents brokenPipeEnv
             (mkChan [catalogerFinishedEnd;
                      mkEvent (OtherType 7) (VString "x") false None] true))
    = Returns /\
  Frame.lines (fr (final (DisplayEvents brokenPipeEnv
             (mkChan [catalogerFinishedEnd;
                      mkEvent (OtherType 7) (VString "x") false None] true))))
    = [None].
Proof.
  exact (ignored_events_change_nothing brokenPipeEnv
           [catalogerFinishedEnd;
            mkEvent (OtherType 7) (VString "x") false None] true eq_refl).
Defined.

(** X9: the display error after the iteration of a result event is the
    outcome of its last assignment, whatever was recorded before.  With a
    footer, it is what the render of the footer returned; without one, it
    is the wrapped failure of the presenter if it failed, and otherwise
    what the render of the title returned.  The loop stops after the
    iteration when the event is terminal or that error is not nil. *)
Theorem result_display_error_is_last_assignment
  (env : Env) (e : Event) (p : Presenter.t) (s : State) :
  finished (Type_ e) = true ->
  Value e = VPresenter p ->
  displayErr (snd (loopBody env e s)) =
    (if String.eqb (Presenter.Footer p) EmptyString
     then match Presenter.Present p with
          | Some err => Some (errorf_present err)
          | None => renderResult env (S (nextLine s)) (titleText p)
          end
     else renderResult env (S (S (S (nextLine s)))) (footerText p)) /\
  fst (loopBody env e s) =
    Ok (if IsEnd e || isSome (displayErr (snd (loopBody env e s)))
        then Break else Next).
Proof.
  intros Hty Hv.
  destruct (loopBody_finished env e p s Hty Hv) as (Hc & Hd & _).
  rewrite Hc, Hd. unfold stopAfter, finishedErr, hasFooter.
  destruct (String.eqb (Presenter.Footer p) EmptyString); cbn; auto.
Qed.

Lemma result_display_error_is_last_assignment_witness :
  displayErr (snd (loopBody brokenPipeEnv
                     (scanFinished (results "" (Some "stdout closed")))
                     initState)) =
    Some (errorf_present "stdout closed") /\
  fst (loopBody brokenPipeEnv
         (scanFinished (results "" (Some "stdout closed"))) initState) =
    Ok Break.
Proof.
  exact (result_display_error_is_last_assignment brokenPipeEnv
           (scanFinished (results "" (Some "stdout closed")))
           (results "" (Some "stdout closed")) initState eq_refl eq_refl).
Defined.

(** X10: an error-detected event that is not a [*bus.ErrorEvent] still
    gets its line: the line is appended and rendered before the assertion
    panics.  The loop stops there, the exit code is the one it had, and
    the result of the render is the display error; the cleanup runs, and
    the process exits if the exit code it leaves is positive, else the
    panic goes on. *)
Theorem untyped_error_event_is_rendered_before_panic
  (env : Env) (pre post : list Event) (e : Event) (s : State) (cl : bool) :
  eventLoop env pre initState = (ChanEmpty, s, []) ->
  Type_ e = NewErrorDetected ->
  errorEvent e = None ->
  loopExit (DisplayEvents env (mkChan (pre ++ e :: post) cl)) = Panicked /\
  unread (DisplayEvents env (mkChan (pre ++ e :: post) cl)) = post /\
  trace (loopState env (pre ++ e :: post) initState) =
    trace s ++
    [ADequeue e; AAppend (nextLine s);
     ARender (nextLine s) (ErrorLine (Value e))
       (renderResult env (nextLine s) (ErrorLine (Value e)))] /\
  exitCode (loopState env (pre ++ e :: post) initState) = exitCode s /\
  displayErr (loopState env (pre ++ e :: post) initState) =
    renderResult env (nextLine s) (ErrorLine (Value e)) /\
  exitCode (final (DisplayEvents env (mkChan (pre ++ e :: post) cl))) =
    match renderResult env (nextLine s) (ErrorLine (Value e)) with
    | Some err => displayErrExitCode env err
    | None => exitCode s
    end /\
  outcome (DisplayEvents env (mkChan (pre ++ e :: post) cl)) =
    (if 0 <? exitCode (final (DisplayEvents env
                                (mkChan (pre ++ e :: post) cl)))
     then Exits (exitCode (final (DisplayEvents env
                                    (mkChan (pre ++ e :: post) cl))))
     else Panics).
Proof.
  intros Hpre Hty Hee.
  pose proof (loopBody_error_untyped env e s Hty Hee) as Hb.
  unfold DisplayEvents, loopState; cbn [events].
  rewrite (eventLoop_app env pre (e :: post) initState s Hpre).
  cbn [eventLoop]. rewrite Hb. cbn [fst snd loopExit unread final outcome].
  repeat split.
  match goal with
  | |- context [cleanup env ?st] =>
      destruct (cleanup_state env st) as (_ & _ & -> & _)
  end.
  reflexivity.
Qed.

Lemma untyped_error_event_is_rendered_before_panic_witness :
  loopExit (DisplayEvents brokenPipeEnv
              (mkChan ([] ++ untypedError :: [newVersion]) true))
    = Panicked /\
  unread (DisplayEvents brokenPipeEnv
            (mkChan ([] ++ untypedError :: [newVersion]) true))
    = [newVersion] /\
  displayErr (loopState brokenPipeEnv ([] ++ untypedError :: [newVersion])
                initState) = Some "broken pipe" /\
  outcome (DisplayEvents brokenPipeEnv
             (mkChan ([] ++ untypedError :: [newVersion]) true)) = Exits 1.
Proof.
  pose proof (untyped_error_event_is_rendered_before_panic brokenPipeEnv
                [] [newVersion] untypedError initState true
                eq_refl eq_refl eq_refl)
    as (H1 & H2 & _ & _ & H5 & _ & H7).
  exact (conj H1 (conj H2 (conj H5 H7))).
Defined.

(** X11: a scan-finished or validate-with-violations event whose value is
    not a presenter makes the loop panic after the wait and before any
    line is appended: the frame, the display error (nil) and the exit code
    are as the loop had them.  The cleanup runs; the process exits with
    the pending exit code if an earlier error-detected event left a
    positive one, else the panic goes on. *)
Theorem untyped_result_event_panics_after_wait
  (env : Env) (pre post : list Event) (e : Event) (s : State) (cl : bool) :
  eventLoop env pre initState = (ChanEmpty, s, []) ->
  finished (Type_ e) = true ->
  asPresenter (Value e) = None ->
  loopExit (DisplayEvents env (mkChan (pre ++ e :: post) cl)) = Panicked /\
  unread (DisplayEvents env (mkChan (pre ++ e :: post) cl)) = post /\
  loopState env (pre ++ e :: post) initState =
    mkState None (exitCode s) (fr s) O (trace s ++ [ADequeue e; AWait]) /\
  outcome (DisplayEvents env (mkChan (pre ++ e :: post) cl)) =
    (if 0 <? exitCode s then Exits (exitCode s) else Panics).
Proof.
  intros Hpre Hty Hv.
  pose proof (reached_no_error env pre s Hpre) as Hd.
  pose proof (loopBody_finished_panics env e s Hty Hv) as Hb.
  rewrite Hd in Hb.
  unfold DisplayEvents, loopState; cbn [events].
  rewrite (eventLoop_app env pre (e :: post) initState s Hpre).
  cbn [eventLoop]. rewrite Hb. cbn [fst snd loopExit unread final outcome].
  rewrite cleanup_no_error by reflexivity. cbn [exitCode].
  repeat split.
Qed.

Lemma untyped_result_event_panics_after_wait_witness :
  loopExit (DisplayEvents okEnv
              (mkChan ([diskFull false] ++ untypedResult :: []) true))
    = Panicked /\
  unread (DisplayEvents okEnv
            (mkChan ([diskFull false] ++ untypedResult :: []) true)) = [] /\
  outcome (DisplayEvents okEnv
             (mkChan ([diskFull false] ++ untypedResult :: []) true))
    = Exits 74.
Proof.
  pose proof (untyped_result_event_panics_after_wait okEnv
                [diskFull false] [] untypedResult
                (loopState okEnv [diskFull false] initState) true
                eq_refl eq_refl eq_refl)
    as (H1 & H2 & _ & H4).
  exact (conj H1 (conj H2 H4)).
Defined.
